(** * cluster::node::local_monitor

    A shallow embedding of [src/v/cluster/node/local_monitor.cc] and the
    properties of its refresh cycle: threshold policy, alert evaluation,
    configuration refresh, probing and rate-limited diagnostics.

    The C++ code computes the percentage term of the free-space floor in
    floating point ([double] for the division by [100.0], [long double] for
    the product).  Those operations are modelled bit-exactly with the IEEE-754
    reference operations of [SpecFloat]. *)

From Stdlib Require Import ZArith QArith Qminmax List String Bool Lia.
From Stdlib Require Import Floats.SpecFloat.
Import ListNotations.
Open Scope Z_scope.

(** ** Floating-point formats and conversions *)

Module fp.

(** [double]: IEEE-754 binary64. *)
Definition dbl_prec : Z := 53.
Definition dbl_emax : Z := 1024.

(** [long double]: the x87 80-bit extended format of the x86-64 System V ABI
    (64-bit significand, 15-bit exponent). *)
Definition ld_prec : Z := 64.
Definition ld_emax : Z := 16384.

(** [float]: IEEE-754 binary32. *)
Definition flt_prec : Z := 24.
Definition flt_emax : Z := 128.

(** Integer to floating-point conversion (round to nearest even). *)
Definition of_Z (prec emax z : Z) : spec_float :=
  binary_normalize prec emax z 0 false.

(** Conversion between formats (round to nearest even; exact when widening). *)
Definition convert (prec emax : Z) (x : spec_float) : spec_float :=
  match x with
  | S754_finite s m e => binary_round prec emax s m e
  | _ => x
  end.

(** Integer part of a finite value, rounded toward zero. *)
Definition truncate (x : spec_float) : option Z :=
  match x with
  | S754_zero _ => Some 0
  | S754_finite s m e =>
      let a := if e <? 0 then Zpos m / 2 ^ (- e) else Zpos m * 2 ^ e in
      Some (if s then - a else a)
  | _ => None
  end.

(** Floating-point to [size_t] conversion: truncation toward zero; the
    behaviour is undefined ([None]) when the truncated value is not
    representable in 64 unsigned bits. *)
Definition to_size_t (x : spec_float) : option Z :=
  match truncate x with
  | Some a => if (0 <=? a) && (a <? 2 ^ 64) then Some a else None
  | None => None
  end.

Definition double_of_Z : Z -> spec_float := of_Z dbl_prec dbl_emax.
Definition double_div : spec_float -> spec_float -> spec_float :=
  SFdiv dbl_prec dbl_emax.
Definition ld_of_Z : Z -> spec_float := of_Z ld_prec ld_emax.
Definition ld_of_double : spec_float -> spec_float := convert ld_prec ld_emax.
Definition ld_mul : spec_float -> spec_float -> spec_float :=
  SFmul ld_prec ld_emax.
Definition ld_div : spec_float -> spec_float -> spec_float :=
  SFdiv ld_prec ld_emax.
Definition float_of_ld : spec_float -> spec_float := convert flt_prec flt_emax.

End fp.

(** ** Data model *)

(** 64-bit unsigned wrap-around ([uint64_t], [size_t], [fsblkcnt_t]). *)
Definition wrap64 (z : Z) : Z := z mod 2 ^ 64.


(** The fields of [struct statvfs] read by [get_disks]. *)
Record statvfs := {
  f_frsize : Z;
  f_blocks : Z;
  f_bfree : Z
}.

(** Modelled from the spec: [cluster/node/types.h] is not among the sources.
    [disk], [disk_space_alert] and [local_state] follow the spec's data model
    (Disk, AlertState, LocalState) with the member names the code uses; a
    [local_state] member left out of an initializer list is value-initialized,
    which for [disk_space_alert] is its first enumerator [ok]. *)
Record disk := {
  path : string;
  free : Z;
  total : Z
}.

Inductive disk_space_alert := ok | low_space.

Record local_state := {
  redpanda_version : string;
  uptime : Z;
  disks : list disk;
  storage_space_alert : disk_space_alert
}.

(** The outcome of a filesystem-statistics query: the statistics, or the
    exception the query raised. *)
Inductive stat_result :=
| StatOk (s : statvfs)
| StatErr (e : string).

(** The members of [local_monitor]. *)
Record local_monitor := {
  _state : local_state;
  _path_for_test : string;
  _statvfs_for_test : option (string -> stat_result);
  last_free_space_percent_threshold : Z;
  last_free_space_bytes_threshold : Z
}.

(** What the monitor reads from its collaborators during one cycle: the
    shard-local and node configuration, the reactor's [statvfs] and uptime,
    and the version string. *)
Record env := {
  storage_space_alert_free_threshold_percent : Z;
  storage_space_alert_free_threshold_bytes : Z;
  data_directory : string;
  engine_statvfs : string -> stat_result;
  version : string;
  engine_uptime : Z
}.

(** ** Observable events

    The trace of one call records, in program order, the log calls, the
    filesystem queries, the points at which the coroutine may suspend and the
    writes to [_state]. *)
Inductive event :=
| EvInfoPercent (old new : Z)
| EvInfoBytes (old new : Z)
| EvStatvfs (p : string)
| EvAwait
| EvStore (s : local_state)
| EvSetAlert (a : disk_space_alert)
| EvDebug (min_by_percent min_by_bytes disk_free : Z) (alert : bool)
| EvSpaceError (percent : spec_float) (d : disk)
    (total_bytes free_bytes min_free : spec_float).

(** ** The monad of member functions

    A member function runs on the monitor's fields, appends to the trace and
    either returns, throws, dies on a failed [vassert] or has undefined
    behaviour. *)
Inductive result (A : Type) :=
| Done (a : A)
| Threw (e : string)
| Fatal (msg : string)
| Undefined.

Arguments Done {A} a.
Arguments Threw {A} e.
Arguments Fatal {A} msg.
Arguments Undefined {A}.

Definition M (A : Type) : Type :=
  local_monitor -> result A * local_monitor * list event.

Definition ret {A} (a : A) : M A := fun s => (Done a, s, []).

Definition bind {A B} (c : M A) (k : A -> M B) : M B :=
  fun s =>
    match c s with
    | (Done a, s1, t1) => let '(r, s2, t2) := k a s1 in (r, s2, t1 ++ t2)
    | (Threw e, s1, t1) => (Threw e, s1, t1)
    | (Fatal msg, s1, t1) => (Fatal msg, s1, t1)
    | (Undefined, s1, t1) => (Undefined, s1, t1)
    end.

Notation "x <- c ;; k" := (bind c (fun x => k))
  (at level 61, c at next level, right associativity).
Notation "c ;; k" := (bind c (fun _ => k))
  (at level 61, right associativity).
Notation "' pat <- c ;; k" := (bind c (fun pat => k))
  (at level 61, pat pattern, c at next level, right associativity).

Definition get : M local_monitor := fun s => (Done s, s, []).
Definition modify (f : local_monitor -> local_monitor) : M unit :=
  fun s => (Done tt, f s, []).
Definition emit (e : event) : M unit := fun s => (Done tt, s, [e]).
Definition throw {A} (e : string) : M A := fun s => (Threw e, s, []).
Definition undefined {A} : M A := fun s => (Undefined, s, []).

(** [vassert(cond, msg)]: always compiled in; a failure terminates the
    process. *)
Definition vassert (cond : bool) (msg : string) : M unit :=
  fun s => if cond then (Done tt, s, []) else (Fatal msg, s, []).

(** [co_await c]: the coroutine may be suspended until [c] has completed,
    with its value or with its exception. *)
Definition co_await {A} (c : M A) : M A :=
  fun s => let '(r, s1, t) := c s in (r, s1, t ++ [EvAwait]).

Definition of_stat_result (r : stat_result) : M statvfs :=
  match r with
  | StatOk s => ret s
  | StatErr e => throw e
  end.

Fixpoint for_each {A} (l : list A) (body : A -> M unit) : M unit :=
  match l with
  | [] => ret tt
  | x :: l' => body x ;; for_each l' body
  end.

(** Field updates. *)
Definition with_state (st : local_state) (m : local_monitor) : local_monitor :=
  {| _state := st;
     _path_for_test := _path_for_test m;
     _statvfs_for_test := _statvfs_for_test m;
     last_free_space_percent_threshold := last_free_space_percent_threshold m;
     last_free_space_bytes_threshold := last_free_space_bytes_threshold m |}.

Definition with_alert (a : disk_space_alert) (st : local_state) : local_state :=
  {| redpanda_version := redpanda_version st;
     uptime := uptime st;
     disks := disks st;
     storage_space_alert := a |}.

Definition with_percent_threshold (p : Z) (m : local_monitor) : local_monitor :=
  {| _state := _state m;
     _path_for_test := _path_for_test m;
     _statvfs_for_test := _statvfs_for_test m;
     last_free_space_percent_threshold := p;
     last_free_space_bytes_threshold := last_free_space_bytes_threshold m |}.

Definition with_bytes_threshold (b : Z) (m : local_monitor) : local_monitor :=
  {| _state := _state m;
     _path_for_test := _path_for_test m;
     _statvfs_for_test := _statvfs_for_test m;
     last_free_space_percent_threshold := last_free_space_percent_threshold m;
     last_free_space_bytes_threshold := b |}.

(** [_state = st] *)
Definition store (st : local_state) : M unit :=
  modify (with_state st) ;; emit (EvStore st).

(** [_state.storage_space_alert = a] *)
Definition set_alert (a : disk_space_alert) : M unit :=
  modify (fun m => with_state (with_alert a (_state m)) m) ;;
  emit (EvSetAlert a).

(** ** local_monitor.cc *)

Definition get_state_cached (m : local_monitor) : local_state := _state m.

Definition set_path_for_test (p : string) (m : local_monitor) : local_monitor :=
  {| _state := _state m;
     _path_for_test := p;
     _statvfs_for_test := _statvfs_for_test m;
     last_free_space_percent_threshold := last_free_space_percent_threshold m;
     last_free_space_bytes_threshold := last_free_space_bytes_threshold m |}.

Definition set_statvfs_for_test (func : string -> stat_result)
  (m : local_monitor) : local_monitor :=
  {| _state := _state m;
     _path_for_test := _path_for_test m;
     _statvfs_for_test := Some func;
     last_free_space_percent_threshold := last_free_space_percent_threshold m;
     last_free_space_bytes_threshold := last_free_space_bytes_threshold m |}.

Definition get_config_alert_threshold_bytes (w : env) : Z :=
  storage_space_alert_free_threshold_bytes w.

Definition get_config_alert_threshold_percent (w : env) : Z :=
  storage_space_alert_free_threshold_percent w.

(** [long double percent_factor = last_free_space_percent_threshold / 100.0]:
    a [double] division whose result is widened to [long double]. *)
Definition percent_factor (percent_threshold : Z) : spec_float :=
  fp.ld_of_double
    (fp.double_div (fp.double_of_Z percent_threshold) (fp.double_of_Z 100)).

(** [percent_factor * bytes_available] converted to [size_t]. *)
Definition min_free_by_percent (percent_threshold bytes_available : Z)
  : option Z :=
  fp.to_size_t
    (fp.ld_mul (percent_factor percent_threshold) (fp.ld_of_Z bytes_available)).

Definition minimum_free_by_bytes_and_percent (bytes_available : Z)
  : M (Z * Z) :=
  self <- get ;;
  match min_free_by_percent (last_free_space_percent_threshold self)
          bytes_available with
  | Some by_percent => ret (last_free_space_bytes_threshold self, by_percent)
  | None => undefined
  end.

Definition get_statvfs (w : env) (p : string) : M statvfs :=
  self <- get ;;
  emit (EvStatvfs p) ;;
  match _statvfs_for_test self with
  | Some func => of_stat_result (func p)
  | None => co_await (of_stat_result (engine_statvfs w p))
  end.

Definition get_disks (w : env) : M (list disk) :=
  self <- get ;;
  let p := if String.eqb (_path_for_test self) EmptyString
           then data_directory w
           else _path_for_test self in
  svfs <- co_await (get_statvfs w p) ;;
  ret [ {| path := data_directory w;
           free := wrap64 (f_bfree svfs * f_frsize svfs);
           total := wrap64 (f_blocks svfs * f_frsize svfs) |} ].

(** [float((free / total) * 100.0)] with [free] and [total] as
    [long double]. *)
Definition percent_free (d : disk) : spec_float :=
  fp.float_of_ld
    (fp.ld_mul (fp.ld_div (fp.ld_of_Z (free d)) (fp.ld_of_Z (total d)))
       (fp.ld_of_double (fp.double_of_Z 100))).

(** Modelled from the spec: [utils/human.h] is not among the sources.
    [human::bytes] renders a byte count in human-readable units; it holds
    the count as a [double], so passing a 64-bit integer narrows it (the
    conversion the source marks NOLINT). *)
Definition human_bytes (v : Z) : spec_float := fp.double_of_Z v.

(** The error-level log call, made through the [despam_interval] rate
    limit, for disk [d]: its arguments are the percentage free and the
    total, the free space and the floor as [human::bytes]. *)
Definition maybe_log_space_error (d : disk) : M unit :=
  '(min_by_bytes, min_by_percent) <- minimum_free_by_bytes_and_percent (total d) ;;
  let min_space := Z.min min_by_percent min_by_bytes in
  emit (EvSpaceError (percent_free d) d (human_bytes (total d))
          (human_bytes (free d)) (human_bytes min_space)).

(** [d.total != 0.0]: the comparison is made in [double]. *)
Definition total_nonzero (d : disk) : bool :=
  negb (SFeqb (fp.double_of_Z (total d)) (S754_zero false)).

Definition update_alert_state : M unit :=
  set_alert ok ;;
  self <- get ;;
  for_each (disks (_state self)) (fun d =>
    vassert (total_nonzero d) "Total disk space cannot be zero." ;;
    '(min_by_bytes, min_by_percent) <- minimum_free_by_bytes_and_percent (total d) ;;
    let min_space := Z.min min_by_percent min_by_bytes in
    emit (EvDebug min_by_percent min_by_bytes (free d) (free d <=? min_space)) ;;
    if free d <=? min_space then
      set_alert low_space ;;
      maybe_log_space_error d
    else ret tt).

Definition refresh_configuration (w : env) : M unit :=
  let percent_threshold := get_config_alert_threshold_percent w in
  let bytes_threshold := get_config_alert_threshold_bytes w in
  self <- get ;;
  (if negb (last_free_space_percent_threshold self =? percent_threshold) then
     emit (EvInfoPercent (last_free_space_percent_threshold self)
             percent_threshold) ;;
     modify (with_percent_threshold percent_threshold)
   else ret tt) ;;
  self <- get ;;
  (if negb (last_free_space_bytes_threshold self =? bytes_threshold) then
     emit (EvInfoBytes (last_free_space_bytes_threshold self) bytes_threshold) ;;
     modify (with_bytes_threshold bytes_threshold)
   else ret tt).

Definition update_state (w : env) : M unit :=
  refresh_configuration w ;;
  disks <- co_await (get_disks w) ;;
  let vers := version w in
  let uptime := engine_uptime w in
  store {| redpanda_version := vers;
           uptime := uptime;
           disks := disks;
           storage_space_alert := ok |} ;;
  update_alert_state.

(** ** Definitions used to state the properties *)

(** The free-space floor the evaluator compares a disk against:
    [std::min(min_by_percent, min_by_bytes)] of the pair returned by
    [minimum_free_by_bytes_and_percent(d.total)]; [None] when that call does
    not return. *)
Definition min_space (m : local_monitor) (d : disk) : option Z :=
  match minimum_free_by_bytes_and_percent (total d) m with
  | (Done (min_by_bytes, min_by_percent), _, _) =>
      Some (Z.min min_by_percent min_by_bytes)
  | _ => None
  end.

(** The shape of [percent_factor p] for a percentage in range: zero for
    [p = 0], otherwise a positive value at most one with a normalised 64-bit
    significand, within half a [double] unit in the last place of [p / 100]. *)
Definition percent_factor_ok (p : Z) : bool :=
  match percent_factor p with
  | S754_zero false => p =? 0
  | S754_finite false mx ex =>
      (2 ^ 63 <=? Zpos mx) && (Zpos mx <? 2 ^ 64)
      && (-1000 <=? ex) && (ex <=? -63)
      && ((ex <? -63) || (Zpos mx =? 2 ^ 63))
      && (2 * Z.abs (100 * Zpos mx - p * 2 ^ (- ex)) <=? 100 * 2048)
  | _ => false
  end.

Definition percents : list Z := map Z.of_nat (seq 0 101).

(** Whether the evaluator finds [d] at or below its floor. *)
Definition below_floor (m : local_monitor) (d : disk) : bool :=
  match min_space m d with
  | Some f => free d <=? f
  | None => false
  end.

(** The monitor once the configuration has been re-read: both cached
    thresholds hold the configured values. *)
Definition configured (w : env) (m : local_monitor) : local_monitor :=
  {| _state := _state m;
     _path_for_test := _path_for_test m;
     _statvfs_for_test := _statvfs_for_test m;
     last_free_space_percent_threshold :=
       storage_space_alert_free_threshold_percent w;
     last_free_space_bytes_threshold :=
       storage_space_alert_free_threshold_bytes w |}.

(** The transition messages of one configuration refresh. *)
Definition info_events (w : env) (m : local_monitor) : list event :=
  (if last_free_space_percent_threshold m
      =? storage_space_alert_free_threshold_percent w
   then []
   else [EvInfoPercent (last_free_space_percent_threshold m)
           (storage_space_alert_free_threshold_percent w)]) ++
  (if last_free_space_bytes_threshold m
      =? storage_space_alert_free_threshold_bytes w
   then []
   else [EvInfoBytes (last_free_space_bytes_threshold m)
           (storage_space_alert_free_threshold_bytes w)]).

(** The path the filesystem query is issued against, and its outcome. *)
Definition probe_path (w : env) (m : local_monitor) : string :=
  if String.eqb (_path_for_test m) EmptyString
  then data_directory w
  else _path_for_test m.

Definition probe (w : env) (m : local_monitor) : stat_result :=
  match _statvfs_for_test m with
  | Some func => func (probe_path w m)
  | None => engine_statvfs w (probe_path w m)
  end.

(** The events of [co_await get_disks()]: the query, and one possible
    suspension per [co_await] on the way. *)
Definition probe_events (w : env) (m : local_monitor) : list event :=
  match _statvfs_for_test m with
  | Some _ => [EvStatvfs (probe_path w m); EvAwait; EvAwait]
  | None => [EvStatvfs (probe_path w m); EvAwait; EvAwait; EvAwait]
  end.

(** The disk [get_disks] builds from the statistics. *)
Definition disk_of_statvfs (w : env) (svfs : statvfs) : disk :=
  {| path := data_directory w;
     free := wrap64 (f_bfree svfs * f_frsize svfs);
     total := wrap64 (f_blocks svfs * f_frsize svfs) |}.

(** The snapshot [update_state] assigns to [_state] before the alert is
    evaluated. *)
Definition fresh_state (w : env) (svfs : statvfs) : local_state :=
  {| redpanda_version := version w;
     uptime := engine_uptime w;
     disks := [disk_of_statvfs w svfs];
     storage_space_alert := ok |}.

(** The loop of [update_alert_state] as a function of the two thresholds,
    the disks still to visit and the alert so far: outcome, final alert and
    events. *)
Fixpoint evaluate (p b : Z) (l : list disk) (a : disk_space_alert)
  : result unit * disk_space_alert * list event :=
  match l with
  | [] => (Done tt, a, [])
  | d :: l' =>
      if total_nonzero d then
        match min_free_by_percent p (total d) with
        | Some by_percent =>
            let f := Z.min by_percent b in
            let dbg := EvDebug by_percent b (free d) (free d <=? f) in
            if free d <=? f then
              let '(r, a', tr) := evaluate p b l' low_space in
              (r, a',
               dbg :: EvSetAlert low_space
                   :: EvSpaceError (percent_free d) d (human_bytes (total d))
                        (human_bytes (free d)) (human_bytes f) :: tr)
            else
              let '(r, a', tr) := evaluate p b l' a in (r, a', dbg :: tr)
        | None => (Undefined, a, [])
        end
      else (Fatal "Total disk space cannot be zero.", a, [])
  end.

(** The disks named by the low-space diagnostics of a trace, in order. *)
Definition space_error_disks (tr : list event) : list disk :=
  flat_map (fun e => match e with EvSpaceError _ d _ _ _ => [d] | _ => [] end)
    tr.

Definition is_info (e : event) : bool :=
  match e with
  | EvInfoPercent _ _ | EvInfoBytes _ _ => true
  | _ => false
  end.

Definition is_space_error (e : event) : bool :=
  match e with
  | EvSpaceError _ _ _ _ _ => true
  | _ => false
  end.

Definition is_statvfs (e : event) : bool :=
  match e with
  | EvStatvfs _ => true
  | _ => false
  end.

Definition is_info_percent (e : event) : bool :=
  match e with
  | EvInfoPercent _ _ => true
  | _ => false
  end.

Definition is_info_bytes (e : event) : bool :=
  match e with
  | EvInfoBytes _ _ => true
  | _ => false
  end.

(** The floor in the spec's words: the minimum of [percent / 100 * total] and
    the byte threshold, as exact rationals. *)
Definition ThresholdPolicy_floor (total_bytes percent_threshold
  bytes_threshold : Z) : Q :=
  Qmin ((percent_threshold # 100) * inject_Z total_bytes)
       (inject_Z bytes_threshold).

(** What a reader of [get_state_cached] can observe while a call with trace
    [tr] runs on cached state [st]: the cached state at every point where the
    coroutine may be suspended. *)
Fixpoint reader_views (st : local_state) (tr : list event)
  : list local_state :=
  match tr with
  | [] => []
  | EvAwait :: tr' => st :: reader_views st tr'
  | EvStore s :: tr' => reader_views s tr'
  | EvSetAlert a :: tr' => reader_views (with_alert a st) tr'
  | _ :: tr' => reader_views st tr'
  end.

(** The successive values of [_state] written during a call. *)
Fixpoint state_writes (st : local_state) (tr : list event)
  : list local_state :=
  match tr with
  | [] => []
  | EvStore s :: tr' => s :: state_writes s tr'
  | EvSetAlert a :: tr' => with_alert a st :: state_writes (with_alert a st) tr'
  | _ :: tr' => state_writes st tr'
  end.

(** ** The rate-limited logger *)

Inductive log_level := error | info | debug.

Record log_line := {
  level : log_level;
  logged_at : Z;
  message : event
}.

(** Modelled from the spec: the logger and the rate limiter behind
    [despam_interval] are not among the sources.  The spec describes the
    limiter as a last-emitted-timestamp tracker with a fixed interval,
    consulted before emission, so that a persistent condition logs at most
    once per interval; info and debug messages are not limited. *)
Record clusterlog := {
  despam_interval : Z;
  last_emitted : option Z;
  lines : list log_line
}.

Definition rate_limit_check (now : Z) (lg : clusterlog) : bool :=
  match last_emitted lg with
  | None => true
  | Some t => t + despam_interval lg <=? now
  end.

Definition log_event (now : Z) (lg : clusterlog) (e : event) : clusterlog :=
  match e with
  | EvSpaceError _ _ _ _ _ =>
      if rate_limit_check now lg then
        {| despam_interval := despam_interval lg;
           last_emitted := Some now;
           lines := lines lg ++
                    [ {| level := error; logged_at := now; message := e |} ] |}
      else lg
  | EvInfoPercent _ _ | EvInfoBytes _ _ =>
      {| despam_interval := despam_interval lg;
         last_emitted := last_emitted lg;
         lines := lines lg ++
                  [ {| level := info; logged_at := now; message := e |} ] |}
  | EvDebug _ _ _ _ =>
      {| despam_interval := despam_interval lg;
         last_emitted := last_emitted lg;
         lines := lines lg ++
                  [ {| level := debug; logged_at := now; message := e |} ] |}
  | _ => lg
  end.

Definition log_trace (now : Z) (lg : clusterlog) (tr : list event)
  : clusterlog :=
  fold_left (log_event now) tr lg.

Definition is_error_line (l : log_line) : bool :=
  match level l with
  | error => true
  | _ => false
  end.

Definition error_lines (lg : clusterlog) : list log_line :=
  filter is_error_line (lines lg).

(** A process running the monitor: a timer calls [update_state] at the given
    times; an exception is left to the caller, a failed assertion ends the
    process. *)
Record process := {
  monitor : local_monitor;
  logger : clusterlog;
  running : bool
}.

Definition cycle (p : process) (c : env * Z) : process :=
  if running p then
    let '(r, m', tr) := update_state (fst c) (monitor p) in
    {| monitor := m';
       logger := log_trace (snd c) (logger p) tr;
       running := match r with
                  | Done _ | Threw _ => true
                  | Fatal _ | Undefined => false
                  end |}
  else p.

Definition run (p : process) (cycles : list (env * Z)) : process :=
  fold_left cycle cycles p.

(** The events of the evaluation loop: debug lines, writes of the alert
    field and low-space diagnostics; no suspension, no query, no
    replacement of [_state]. *)
Definition quiet (e : event) : Prop :=
  match e with
  | EvDebug _ _ _ _ | EvSetAlert _ | EvSpaceError _ _ _ _ _ => True
  | _ => False
  end.

(** ** Sample inputs *)

Definition sample_monitor (p b : Z) (ds : list disk) : local_monitor :=
  {| _state := {| redpanda_version := "v21.11.1";
                  uptime := 0;
                  disks := ds;
                  storage_space_alert := ok |};
     _path_for_test := EmptyString;
     _statvfs_for_test := None;
     last_free_space_percent_threshold := p;
     last_free_space_bytes_threshold := b |}.

Definition sample_env (p b : Z) (r : stat_result) : env :=
  {| storage_space_alert_free_threshold_percent := p;
     storage_space_alert_free_threshold_bytes := b;
     data_directory := "/var/lib/redpanda/data";
     engine_statvfs := fun _ => r;
     version := "v21.11.1";
     engine_uptime := 60000 |}.

Definition sample_disk (f t : Z) : disk :=
  {| path := "/var/lib/redpanda/data"; free := f; total := t |}.

Definition GiB : Z := 2 ^ 30.

(** Within a window starting at [t0], the error lines [old] present at its
    start have been extended by at most one line, emitted inside the
    window. *)
Definition window_inv (t0 : Z) (old : list log_line) (lg : clusterlog)
  : Prop :=
  exists new,
    error_lines lg = old ++ new /\
    (new = [] \/
     (List.length new = 1%nat /\
      exists t, last_emitted lg = Some t /\ t0 <= t)).

(** Two environments that differ at most in version and uptime. *)
Definition same_inputs (w1 w2 : env) : Prop :=
  storage_space_alert_free_threshold_percent w2
    = storage_space_alert_free_threshold_percent w1 /\
  storage_space_alert_free_threshold_bytes w2
    = storage_space_alert_free_threshold_bytes w1 /\
  data_directory w2 = data_directory w1 /\
  engine_statvfs w2 = engine_statvfs w1.

(** An environment whose reactor answers filesystem queries with [f]. *)
Definition with_engine_statvfs (f : string -> stat_result) (w : env) : env :=
  {| storage_space_alert_free_threshold_percent :=
       storage_space_alert_free_threshold_percent w;
     storage_space_alert_free_threshold_bytes :=
       storage_space_alert_free_threshold_bytes w;
     data_directory := data_directory w;
     engine_statvfs := f;
     version := version w;
     engine_uptime := engine_uptime w |}.

(** * Properties *)

(** ** Rounding in [SpecFloat]

    What the claims need of the IEEE-754 operations: a right shift by [n]
    followed by round-to-nearest-even moves a significand by at most half a
    unit in the last place, and [binary_round_aux] is that shift, with a
    renormalisation when the rounding carries. *)

Lemma digits2_pos_size (p : positive) : digits2_pos p = Pos.size p.
Proof. induction p as [p IH|p IH|]; simpl; now rewrite ?IH. Qed.

Lemma digits2_pos_bounds (p : positive) :
  2 ^ (Zpos (digits2_pos p) - 1) <= Zpos p < 2 ^ Zpos (digits2_pos p).
Proof.
  rewrite digits2_pos_size. split.
  - pose proof (Pos.size_le p) as H.
    assert (H' : 2 ^ Zpos (Pos.size p) <= 2 * Zpos p).
    { rewrite <- Pos2Z.inj_pow. change (2 * Zpos p) with (Zpos p~0). exact H. }
    replace (Zpos (Pos.size p)) with (Z.succ (Zpos (Pos.size p) - 1)) in H' by lia.
    rewrite Z.pow_succ_r in H' by lia. lia.
  - pose proof (Pos.size_gt p) as H.
    rewrite <- Pos2Z.inj_pow. exact H.
Qed.

Lemma Zdigits2_unique (z d : Z) :
  2 ^ (d - 1) <= z < 2 ^ d -> 0 < z -> Zdigits2 z = d.
Proof.
  intros [Hlo Hhi] Hz. destruct z as [|p|p]; try lia. simpl.
  pose proof (digits2_pos_bounds p) as [Blo Bhi].
  set (d' := Zpos (digits2_pos p)) in *.
  assert (0 < d) by (destruct (Z_lt_le_dec 0 d) as [|Hd]; [assumption|];
    destruct d as [|q|q]; try lia; simpl in Hhi; lia).
  assert (d' - 1 < d) by (apply (Z.pow_lt_mono_r_iff 2); lia).
  assert (d - 1 < d') by (apply (Z.pow_lt_mono_r_iff 2); lia).
  lia.
Qed.

Lemma iter_pos_nat {A} (f : A -> A) (p : positive) (x : A) :
  iter_pos f p x = Nat.iter (Pos.to_nat p) f x.
Proof.
  revert x. induction p as [p IH|p IH|]; intros x; cbn [iter_pos].
  - rewrite !IH. rewrite Pos2Nat.inj_xI.
    replace (S (2 * Pos.to_nat p)) with (Pos.to_nat p + S (Pos.to_nat p))%nat by lia.
    rewrite Nat.iter_add. f_equal. now rewrite Nat.iter_succ_r.
  - rewrite !IH. rewrite Pos2Nat.inj_xO.
    replace (2 * Pos.to_nat p)%nat with (Pos.to_nat p + Pos.to_nat p)%nat by lia.
    now rewrite Nat.iter_add.
  - reflexivity.
Qed.

Lemma shr_1_nonneg (m : Z) (r s : bool) :
  0 <= m ->
  shr_1 {| shr_m := m; shr_r := r; shr_s := s |} =
  {| shr_m := m / 2; shr_r := Z.odd m; shr_s := r || s |}.
Proof.
  intros Hm. rewrite <- Z.div2_div.
  destruct m as [|[p|p|]|p]; try lia; reflexivity.
Qed.

Lemma shr_iter (m : Z) (k : nat) :
  0 <= m ->
  Nat.iter (S k) shr_1 {| shr_m := m; shr_r := false; shr_s := false |} =
  {| shr_m := m / 2 ^ Z.of_nat (S k);
     shr_r := Z.odd (m / 2 ^ Z.of_nat k);
     shr_s := negb (m mod 2 ^ Z.of_nat k =? 0) |}.
Proof.
  intros Hm. induction k as [|k IH].
  - unfold Nat.iter; cbn [nat_rect]. rewrite shr_1_nonneg by assumption.
    change (2 ^ Z.of_nat 1) with 2. change (2 ^ Z.of_nat 0) with 1.
    rewrite Z.div_1_r, Z.mod_1_r. reflexivity.
  - rewrite Nat.iter_succ, IH.
    assert (Hp : 0 < 2 ^ Z.of_nat k) by (apply Z.pow_pos_nonneg; lia).
    assert (Hp' : 0 < 2 ^ Z.of_nat (S k)) by (apply Z.pow_pos_nonneg; lia).
    rewrite shr_1_nonneg by (apply Z.div_pos; lia).
    f_equal.
    + rewrite Z.div_div by lia.
      rewrite (Nat2Z.inj_succ (S k)), Z.pow_succ_r by lia. f_equal. lia.
    + assert (E : 2 ^ Z.of_nat (S k) = 2 ^ Z.of_nat k * 2)
        by (rewrite Nat2Z.inj_succ, Z.pow_succ_r by lia; lia).
      rewrite E, Z.rem_mul_r by lia.
      pose proof (Z.mod_pos_bound m (2 ^ Z.of_nat k) Hp) as B.
      rewrite Zmod_odd.
      destruct (Z.odd (m / 2 ^ Z.of_nat k)); simpl.
      * match goal with |- context [?a =? 0] => destruct (Z.eqb_spec a 0) end;
        [lia | reflexivity].
      * rewrite Z.mul_0_r, Z.add_0_r. reflexivity.
Qed.

Lemma shr_round (m : Z) (n : positive) :
  0 <= m ->
  let mrs := iter_pos shr_1 n {| shr_m := m; shr_r := false; shr_s := false |} in
  let m1 := round_nearest_even (shr_m mrs) (loc_of_shr_record mrs) in
  m / 2 ^ Zpos n <= m1 <= m / 2 ^ Zpos n + 1 /\
  2 * Z.abs (m1 * 2 ^ Zpos n - m) <= 2 ^ Zpos n.
Proof.
  intros Hm mrs m1. subst m1 mrs. rewrite iter_pos_nat.
  destruct (Pos2Nat.is_succ n) as [k Hk]. rewrite Hk, shr_iter by assumption.
  assert (En : Z.of_nat (S k) = Zpos n) by lia.
  rewrite En.
  set (P := 2 ^ Z.of_nat k).
  assert (HP : 0 < P) by (apply Z.pow_pos_nonneg; lia).
  assert (EP : 2 ^ Zpos n = P * 2) by (rewrite <- En, Nat2Z.inj_succ, Z.pow_succ_r by lia; subst P; lia).
  rewrite EP.
  pose proof (Z.div_mod m P ltac:(lia)) as Dm.
  pose proof (Z.mod_pos_bound m P HP) as Bm.
  assert (Dq : m / (P * 2) = m / P / 2) by (rewrite Z.div_div by lia; reflexivity).
  rewrite Dq.
  set (a := m / P) in *. set (low := m mod P) in *.
  pose proof (Z.div_mod a 2 ltac:(lia)) as Da.
  rewrite Zmod_odd in Da.
  set (q := a / 2) in *.
  cbn [shr_m shr_r shr_s loc_of_shr_record].
  destruct (Z.odd a); cbn [loc_of_shr_record];
    destruct (Z.eqb_spec low 0) as [E0|N0]; cbn [negb round_nearest_even];
    try destruct (Z.even q); nia.
Qed.

Section RoundAux.
Variables prec emax : Z.
Hypothesis Hprec : 0 < prec.

Lemma shr_fexp_exact (m e : Z) :
  emin prec emax <= Zdigits2 m + e - prec ->
  shr_fexp prec emax m e loc_Exact =
  shr {| shr_m := m; shr_r := false; shr_s := false |} e (Zdigits2 m - prec).
Proof.
  intros Hn. unfold shr_fexp, fexp. rewrite Z.max_l by assumption.
  cbn [shr_record_of_loc]. f_equal. lia.
Qed.

Lemma binary_round_aux_exact (s : bool) (m : positive) (e : Z) :
  emin prec emax <= Zpos (digits2_pos m) + e - prec ->
  exists (m' : positive) (k : Z),
    binary_round_aux prec emax s (Zpos m) e loc_Exact =
      (if e + k <=? emax - prec then S754_finite s m' (e + k)
       else S754_infinity s) /\
    Z.max 0 (Zpos (digits2_pos m) - prec) <= k
      <= Z.max 0 (Zpos (digits2_pos m) - prec) + 1 /\
    Zpos m' < 2 ^ prec /\
    2 * Z.abs (Zpos m' * 2 ^ k - Zpos m)
      <= 2 ^ Z.max 0 (Zpos (digits2_pos m) - prec) /\
    (Zpos (digits2_pos m) <= prec -> m' = m /\ k = 0).
Proof.
  intros Hn. pose proof (digits2_pos_bounds m) as [Blo Bhi].
  set (d := Zpos (digits2_pos m)) in *.
  unfold binary_round_aux. rewrite shr_fexp_exact by exact Hn.
  change (Zdigits2 (Zpos m)) with d.
  assert (Hfit : d - prec <= 0 ->
    exists (m' : positive) (k : Z),
      (let '(mrs'', e'') :=
         shr_fexp prec emax (Zpos m) e loc_Exact in
       match shr_m mrs'' with
       | 0 => S754_zero s
       | Zpos m0 =>
           if e'' <=? emax - prec then S754_finite s m0 e''
           else S754_infinity s
       | Zneg _ => S754_nan
       end) =
      (if e + k <=? emax - prec then S754_finite s m' (e + k)
       else S754_infinity s) /\
      Z.max 0 (d - prec) <= k <= Z.max 0 (d - prec) + 1 /\
      Zpos m' < 2 ^ prec /\
      2 * Z.abs (Zpos m' * 2 ^ k - Zpos m) <= 2 ^ Z.max 0 (d - prec) /\
      (d <= prec -> m' = m /\ k = 0)).
  { intros Hle. rewrite shr_fexp_exact by exact Hn.
    change (Zdigits2 (Zpos m)) with d.
    exists m, 0. rewrite Z.add_0_r, Z.max_l by lia.
    assert (Hd : 2 ^ d <= 2 ^ prec) by (apply Z.pow_le_mono_r; lia).
    destruct (d - prec) as [|n|n]; try lia; cbn [shr shr_m];
      repeat split; try reflexivity; lia. }
  destruct (d - prec) as [|n|n] eqn:En.
  - (* the significand fits exactly *)
    cbn [shr shr_m loc_of_shr_record round_nearest_even].
    apply Hfit. lia.
  - (* one rounding step *)
    clear Hfit. cbn [shr].
    pose proof (shr_round (Zpos m) n ltac:(lia)) as [[Qlo Qhi] Hhalf].
    set (mrs := iter_pos shr_1 n _) in *.
    set (m1 := round_nearest_even (shr_m mrs) (loc_of_shr_record mrs)) in *.
    assert (Hpn : 0 < 2 ^ Zpos n) by (apply Z.pow_pos_nonneg; lia).
    assert (Ed : 2 ^ d = 2 ^ Zpos n * 2 ^ prec)
      by (rewrite <- Z.pow_add_r by lia; f_equal; lia).
    assert (Ed1 : 2 ^ (d - 1) = 2 ^ Zpos n * 2 ^ (prec - 1))
      by (rewrite <- Z.pow_add_r by lia; f_equal; lia).
    assert (Hpp : 0 < 2 ^ (prec - 1)) by (apply Z.pow_pos_nonneg; lia).
    assert (Epp : 2 ^ prec = 2 * 2 ^ (prec - 1))
      by (rewrite <- Z.pow_succ_r by lia; f_equal; lia).
    assert (Q1 : 2 ^ (prec - 1) <= Zpos m / 2 ^ Zpos n)
      by (apply Z.div_le_lower_bound; lia).
    assert (Q2 : Zpos m / 2 ^ Zpos n < 2 ^ prec)
      by (apply Z.div_lt_upper_bound; lia).
    rewrite Z.max_r by lia.
    destruct (Z_lt_le_dec m1 (2 ^ prec)) as [Hlt|Hge].
    + (* no carry *)
      rewrite shr_fexp_exact
        by (rewrite (Zdigits2_unique m1 prec) by lia; lia).
      rewrite (Zdigits2_unique m1 prec) by lia.
      rewrite Z.sub_diag. cbn [shr shr_m].
      destruct m1 as [|p1|p1] eqn:E1; try lia.
      exists p1, (Zpos n). repeat split; try lia.
    + (* carry into the next binade *)
      assert (E1 : m1 = 2 ^ prec) by lia.
      assert (Dg : Zdigits2 m1 = prec + 1)
        by (apply Zdigits2_unique; rewrite ?Z.pow_succ_r by lia;
            replace (prec + 1 - 1) with prec by lia;
            rewrite ?Z.add_1_r, ?Z.pow_succ_r by lia; lia).
      rewrite shr_fexp_exact by (rewrite Dg; lia).
      rewrite Dg. replace (prec + 1 - prec) with 1 by lia.
      cbn [shr iter_pos]. rewrite shr_1_nonneg by lia. cbn [shr_m].
      assert (Eh : m1 / 2 = 2 ^ (prec - 1)).
      { rewrite E1, Epp, Z.mul_comm. apply Z.div_mul. lia. }
      rewrite Eh.
      destruct (2 ^ (prec - 1)) as [|ph|ph] eqn:Eph; try lia.
      exists ph, (Zpos n + 1).
      rewrite Z.add_assoc. repeat split; try lia.
      rewrite Z.pow_add_r by lia. change (2 ^ 1) with 2.
      replace (Zpos ph * (2 ^ Zpos n * 2)) with (m1 * 2 ^ Zpos n) by nia.
      exact Hhalf.
  - cbn [shr shr_m loc_of_shr_record round_nearest_even].
    apply Hfit. lia.
Qed.

End RoundAux.

Lemma Pos_iter_xO (m k : positive) :
  Zpos (Pos.iter xO m k) = Zpos m * 2 ^ Zpos k.
Proof.
  apply (Pos.iter_ind _ xO m (fun p a => Zpos a = Zpos m * 2 ^ Zpos p)).
  - change (2 ^ 1) with 2. lia.
  - intros p a IH. rewrite Pos2Z.inj_succ, Z.pow_succ_r by lia.
    change (Zpos a~0) with (2 * Zpos a). lia.
Qed.

Lemma shl_align_spec (m : positive) (e e' : Z) :
  exists m1 e1, shl_align m e e' = (m1, e1) /\
    e1 = Z.min e e' /\ Zpos m1 = Zpos m * 2 ^ (e - e1).
Proof.
  unfold shl_align. destruct (e' - e) as [|k|k] eqn:Ek.
  - exists m, e. rewrite Z.min_l, Z.sub_diag by lia.
    repeat split. lia.
  - exists m, e. rewrite Z.min_l, Z.sub_diag by lia.
    repeat split. lia.
  - exists (Pos.iter xO m k), e'. rewrite Z.min_r by lia.
    repeat split. rewrite Pos_iter_xO. f_equal. f_equal. lia.
Qed.

Lemma digits2_pos_shift (m m1 : positive) (j : Z) :
  0 <= j -> Zpos m1 = Zpos m * 2 ^ j ->
  Zpos (digits2_pos m1) = Zpos (digits2_pos m) + j.
Proof.
  intros Hj E. pose proof (digits2_pos_bounds m) as [Blo Bhi].
  change (Zpos (digits2_pos m1)) with (Zdigits2 (Zpos m1)).
  assert (Hp : 0 < 2 ^ j) by (apply Z.pow_pos_nonneg; lia).
  apply Zdigits2_unique; [|lia].
  replace (Zpos (digits2_pos m) + j - 1) with (Zpos (digits2_pos m) - 1 + j)
    by lia.
  rewrite !Z.pow_add_r by lia. nia.
Qed.

Section BinaryRound.
Variables prec emax : Z.
Hypothesis Hprec : 0 < prec.

(** Rounding a positive significand in the normal range never gives zero or
    NaN. *)
Lemma binary_round_normal (s : bool) (m : positive) (e : Z) :
  emin prec emax <= Zpos (digits2_pos m) + e - prec ->
  exists (m' : positive) (e' : Z),
    binary_round prec emax s m e =
    (if e' <=? emax - prec then S754_finite s m' e' else S754_infinity s).
Proof.
  intros Hn. unfold binary_round.
  destruct (shl_align_spec m e (fexp prec emax (Zpos (digits2_pos m) + e)))
    as (m1 & e1 & -> & He1 & Hm1).
  assert (Hd : Zpos (digits2_pos m1) = Zpos (digits2_pos m) + (e - e1))
    by (apply digits2_pos_shift; [lia | assumption]).
  destruct (binary_round_aux_exact prec emax Hprec s m1 e1 ltac:(lia))
    as (m' & k & -> & _).
  now exists m', (e1 + k).
Qed.

(** A significand of at most [prec] bits is only shifted into place. *)
Lemma binary_round_fits (s : bool) (m : positive) (e : Z) :
  let d := Zpos (digits2_pos m) in
  d <= prec ->
  emin prec emax <= d + e - prec <= emax - prec ->
  exists m' : positive,
    binary_round prec emax s m e = S754_finite s m' (d + e - prec) /\
    Zpos m' = Zpos m * 2 ^ (prec - d).
Proof.
  intros d Hd Hn. unfold binary_round.
  assert (Ef : fexp prec emax (d + e) = d + e - prec)
    by (unfold fexp; lia).
  fold d. rewrite Ef.
  destruct (shl_align_spec m e (d + e - prec)) as (m1 & e1 & -> & He1 & Hm1).
  rewrite Z.min_r in He1 by lia. subst e1.
  replace (e - (d + e - prec)) with (prec - d) in Hm1 by lia.
  assert (Hd1 : Zpos (digits2_pos m1) = prec)
    by (rewrite (digits2_pos_shift m m1 (prec - d)) by (lia || assumption);
        fold d; lia).
  destruct (binary_round_aux_exact prec emax Hprec s m1 (d + e - prec)
              ltac:(lia)) as (m' & k & -> & _ & _ & _ & Hfit).
  destruct (Hfit ltac:(lia)) as [-> ->].
  exists m1. rewrite Z.add_0_r.
  destruct (Z.leb_spec (d + e - prec) (emax - prec)); [|lia].
  split; [reflexivity | assumption].
Qed.

End BinaryRound.

(** ** Arithmetic of the percentage term *)

(* K stands for 2^63, H for 2^52, so that K = H * 2^11 *)
Lemma product_truncation_core (p t mx my A B N W T K H : Z) :
  0 < H -> K = H * 2048 ->
  0 <= p <= 100 -> 0 < t -> 1 <= A -> my = t * A ->
  K <= my < 2 * K -> K <= mx < 2 * K -> mx <= B ->
  0 < N -> N * K <= mx * my ->
  2 * Z.abs (W - mx * my) <= N ->
  T * (A * B) <= W < (T + 1) * (A * B) ->
  2 * Z.abs (100 * mx - p * B) <= 100 * 2048 ->
  0 <= T <= t /\
  H * Z.abs (100 * T - p * t) <= 100 * (2 * H + t).
Proof.
  intros HH EK Hp Ht HA Emy Hmy Hmx HB HN HNm HW HT Hpf.
  assert (HK : 0 < K) by lia.
  assert (HBK : K <= B) by lia.
  assert (HAB : 0 < A * B) by (apply Z.mul_pos_pos; lia).
  assert (HmB : mx * my <= B * my) by (apply Z.mul_le_mono_nonneg_r; lia).
  assert (HNB : N < 2 * B).
  { apply Z.nle_gt. intros C.
    assert (S1 : 2 * B * K <= N * K) by (apply Z.mul_le_mono_nonneg_r; lia).
    assert (S2 : B * my < B * (2 * K)) by (apply Z.mul_lt_mono_pos_l; lia).
    assert (S3 : B * (2 * K) = 2 * B * K) by ring.
    clear - S1 S2 S3 HNm HmB. lia. }
  assert (HBAB : B <= A * B).
  { replace B with (1 * B) at 1 by lia. apply Z.mul_le_mono_nonneg_r; lia. }
  assert (Emy' : B * my = t * (A * B)) by (subst my; ring).
  assert (HT0 : 0 <= T).
  { apply Z.nlt_ge. intros C.
    assert (S1 : (T + 1) * (A * B) <= 0)
      by (apply Z.mul_nonpos_nonneg; lia).
    assert (S2 : 0 < mx * my) by (apply Z.mul_pos_pos; lia).
    assert (S3 : N * 1 <= N * K) by (apply Z.mul_le_mono_nonneg_l; lia).
    lia. }
  assert (HTt : T <= t).
  { apply Z.nlt_ge. intros C.
    assert (S1 : (t + 1) * (A * B) <= T * (A * B))
      by (apply Z.mul_le_mono_nonneg_r; lia).
    lia. }
  split; [lia|].
  set (Q := A * B) in *.
  assert (E2 : Z.abs ((100 * mx - p * B) * my) <= 50 * 2048 * my).
  { rewrite Z.abs_mul, (Z.abs_eq my) by lia.
    apply Z.mul_le_mono_nonneg_r; lia. }
  assert (E3 : (100 * mx - p * B) * my = 100 * (mx * my) - p * (t * Q))
    by (rewrite <- Emy'; ring).
  assert (E5 : 2048 * my * H <= t * Q).
  { rewrite <- Emy'. replace (2048 * my * H) with (K * my) by (subst K; ring).
    apply Z.mul_le_mono_nonneg_r; lia. }
  assert (E6 : B * H <= Q * H) by (apply Z.mul_le_mono_nonneg_r; lia).
  (* bounds on 100 * W - p * t * Q, scaled by H *)
  assert (U : (100 * T - p * t) * Q <= 100 * W - p * (t * Q)) by lia.
  assert (L : 100 * W - p * (t * Q) < (100 * T - p * t) * Q + 100 * Q) by lia.
  assert (V : Z.abs (100 * W - p * (t * Q)) < 100 * B + 50 * 2048 * my) by lia.
  assert (HQH : 0 < Q * H) by (apply Z.mul_pos_pos; lia).
  assert (U' : H * (100 * T - p * t) <= 100 * H + 50 * t).
  { apply Z.nlt_ge. intros C.
    assert (S1 : (100 * H + 50 * t + 1) * Q <= H * (100 * T - p * t) * Q)
      by (apply Z.mul_le_mono_nonneg_r; lia).
    assert (S2 : H * (100 * T - p * t) * Q
                 = H * ((100 * T - p * t) * Q)) by ring.
    assert (S3 : H * ((100 * T - p * t) * Q)
                 <= H * (100 * W - p * (t * Q)))
      by (apply Z.mul_le_mono_nonneg_l; lia).
    assert (S4 : H * (100 * W - p * (t * Q))
                 <= H * (100 * B + 50 * 2048 * my))
      by (apply Z.mul_le_mono_nonneg_l; lia).
    lia. }
  assert (L' : H * (p * t - 100 * T) <= 200 * H + 50 * t).
  { apply Z.nlt_ge. intros C.
    assert (S1 : (200 * H + 50 * t + 1) * Q <= H * (p * t - 100 * T) * Q)
      by (apply Z.mul_le_mono_nonneg_r; lia).
    assert (S2 : H * (p * t - 100 * T) * Q
                 = H * ((p * t - 100 * T) * Q)) by ring.
    assert (S3 : H * ((p * t - 100 * T) * Q)
                 <= H * (100 * B + 50 * 2048 * my + 100 * Q))
      by (apply Z.mul_le_mono_nonneg_l; lia).
    lia. }
  lia.
Qed.

Lemma total_nonzero_spec (d : disk) :
  total_nonzero d = negb (total d =? 0).
Proof.
  unfold total_nonzero, fp.double_of_Z, fp.of_Z, binary_normalize.
  destruct (total d) as [|m|m]; [reflexivity| |].
  - destruct (binary_round_normal fp.dbl_prec fp.dbl_emax eq_refl false m 0)
      as (m' & e' & ->).
    + pose proof (Pos2Z.is_pos (digits2_pos m)).
      unfold emin, fp.dbl_prec, fp.dbl_emax. lia.
    + now destruct (e' <=? _).
  - destruct (binary_round_normal fp.dbl_prec fp.dbl_emax eq_refl true m 0)
      as (m' & e' & ->).
    + pose proof (Pos2Z.is_pos (digits2_pos m)).
      unfold emin, fp.dbl_prec, fp.dbl_emax. lia.
    + now destruct (e' <=? _).
Qed.

(** A nonzero 64-bit integer converts to [long double] exactly. *)
Lemma ld_of_Z_exact (t : Z) :
  0 < t < 2 ^ 64 ->
  exists (my : positive) (a : Z),
    fp.ld_of_Z t = S754_finite false my (- a) /\
    0 <= a <= 63 /\ Zpos my = t * 2 ^ a /\ 2 ^ 63 <= Zpos my < 2 ^ 64.
Proof.
  intros [Hlo Hhi]. destruct t as [|m|m]; try lia.
  unfold fp.ld_of_Z, fp.of_Z, binary_normalize.
  pose proof (digits2_pos_bounds m) as [Blo Bhi].
  set (d := Zpos (digits2_pos m)) in *.
  assert (Hd : 1 <= d <= 64).
  { split; [subst d; lia|].
    assert (d - 1 < 64) by (apply (Z.pow_lt_mono_r_iff 2); lia). lia. }
  destruct (binary_round_fits fp.ld_prec fp.ld_emax eq_refl false m 0)
    as (my & Eq & Emy).
  - fold d. unfold fp.ld_prec. lia.
  - fold d. unfold emin, fp.ld_prec, fp.ld_emax. lia.
  - rewrite Eq. fold d in Emy |- *. unfold fp.ld_prec in Emy |- *.
    exists my, (64 - d). split; [f_equal; lia|].
    split; [lia|]. split; [assumption|].
    rewrite Emy.
    assert (E1 : 2 ^ 63 = 2 ^ (d - 1) * 2 ^ (64 - d))
      by (rewrite <- Z.pow_add_r by lia; f_equal; lia).
    assert (E2 : 2 ^ 64 = 2 ^ d * 2 ^ (64 - d))
      by (rewrite <- Z.pow_add_r by lia; f_equal; lia).
    assert (Hp : 0 < 2 ^ (64 - d)) by (apply Z.pow_pos_nonneg; lia).
    rewrite E1, E2. split.
    + apply Z.mul_le_mono_nonneg_r; lia.
    + apply Z.mul_lt_mono_pos_r; lia.
Qed.

Lemma percents_ok : forallb percent_factor_ok percents = true.
Proof. vm_compute. reflexivity. Qed.

Lemma percent_factor_ok_all (p : Z) :
  0 <= p <= 100 -> percent_factor_ok p = true.
Proof.
  intros Hp. pose proof percents_ok as H.
  rewrite forallb_forall in H. apply H.
  unfold percents. rewrite <- (Z2Nat.id p) by lia.
  apply in_map, in_seq. lia.
Qed.

Lemma truncate_bounds (m' : positive) (k E : Z) :
  0 <= k -> 0 <= E ->
  exists T, fp.truncate (S754_finite false m' (k - E)) = Some T /\
    T * 2 ^ E <= Zpos m' * 2 ^ k < (T + 1) * 2 ^ E.
Proof.
  intros Hk HE. unfold fp.truncate.
  assert (Pk : 0 < 2 ^ k) by (apply Z.pow_pos_nonneg; lia).
  assert (PE : 0 < 2 ^ E) by (apply Z.pow_pos_nonneg; lia).
  destruct (Z.ltb_spec (k - E) 0) as [Hneg|Hpos].
  - eexists; split; [reflexivity|].
    replace (- (k - E)) with (E - k) by lia.
    set (D := 2 ^ (E - k)).
    assert (PD : 0 < D) by (apply Z.pow_pos_nonneg; lia).
    assert (EE : 2 ^ E = D * 2 ^ k)
      by (unfold D; rewrite <- Z.pow_add_r by lia; f_equal; lia).
    pose proof (Z.mul_div_le (Zpos m') D PD) as L1.
    pose proof (Z.mul_succ_div_gt (Zpos m') D PD) as L2.
    set (T := Zpos m' / D) in *. rewrite EE. split.
    + replace (T * (D * 2 ^ k)) with (D * T * 2 ^ k) by ring.
      apply Z.mul_le_mono_nonneg_r; lia.
    + replace ((T + 1) * (D * 2 ^ k)) with (D * Z.succ T * 2 ^ k)
        by (unfold Z.succ; ring).
      apply Z.mul_lt_mono_pos_r; lia.
  - eexists; split; [reflexivity|].
    assert (EK : 2 ^ k = 2 ^ (k - E) * 2 ^ E)
      by (rewrite <- Z.pow_add_r by lia; f_equal; lia).
    rewrite EK.
    replace (Zpos m' * (2 ^ (k - E) * 2 ^ E))
      with (Zpos m' * 2 ^ (k - E) * 2 ^ E) by ring.
    split; [lia|].
    apply Z.mul_lt_mono_pos_r; lia.
Qed.

(** The percentage term of the floor is defined for every percentage up to
    100 and every 64-bit size; it never exceeds the size and lies within
    [2 + t / 2^52] of the exact [p / 100 * t]. *)
Lemma min_free_by_percent_spec (p t : Z) :
  0 <= p <= 100 -> 0 <= t < 2 ^ 64 ->
  exists T, min_free_by_percent p t = Some T /\ 0 <= T <= t /\
    2 ^ 52 * Z.abs (100 * T - p * t) <= 100 * (2 * 2 ^ 52 + t).
Proof.
  intros Hp Ht. pose proof (percent_factor_ok_all p Hp) as Hok.
  unfold percent_factor_ok in Hok. unfold min_free_by_percent.
  destruct (Z.eq_dec t 0) as [->|Hnz].
  - exists 0. change (fp.ld_of_Z 0) with (S754_zero false).
    destruct (percent_factor p) as [[|]| | |[|] mx ex]; try discriminate;
      (split; [reflexivity | rewrite ?Z.mul_0_r; simpl Z.abs; lia]).
  - destruct (ld_of_Z_exact t ltac:(lia)) as (my & a & Eld & Ha & Emy & Bmy).
    rewrite Eld.
    destruct (percent_factor p) as [[|]| | |[|] mx ex]; try discriminate.
    + apply Z.eqb_eq in Hok. subst p. exists 0.
      split; [reflexivity | rewrite ?Z.mul_0_l; simpl Z.abs; lia].
    + repeat rewrite andb_true_iff in Hok.
      destruct Hok as [[[[[Hm1 Hm2] He1] He2] Hone] Hpf].
      apply Z.leb_le in Hm1, He1, He2, Hpf. apply Z.ltb_lt in Hm2.
      unfold fp.ld_mul, SFmul. cbn [xorb].
      pose proof (digits2_pos_bounds (mx * my)) as [Dlo Dhi].
      set (d := Zpos (digits2_pos (mx * my))) in *.
      rewrite Pos2Z.inj_mul in Dlo, Dhi.
      assert (Plo : 2 ^ 63 * 2 ^ 63 <= Zpos mx * Zpos my)
        by (apply Z.mul_le_mono_nonneg; lia).
      assert (Phi : Zpos mx * Zpos my < 2 ^ 64 * 2 ^ 64)
        by (apply Z.mul_lt_mono_nonneg; lia).
      assert (Hd : 127 <= d <= 128).
      { assert (126 < d) by (apply (Z.pow_lt_mono_r_iff 2); lia).
        assert (d - 1 < 128) by (apply (Z.pow_lt_mono_r_iff 2); lia).
        lia. }
      destruct (binary_round_aux_exact fp.ld_prec fp.ld_emax eq_refl false
                  (mx * my) (ex + - a))
        as (m' & k & Eq & Hk & _ & Herr & _).
      { fold d. unfold emin, fp.ld_prec, fp.ld_emax. lia. }
      fold d in Hk, Herr. unfold fp.ld_prec in Hk, Herr.
      rewrite Z.max_r in Hk, Herr by lia.
      rewrite Eq.
      destruct (Z.leb_spec (ex + - a + k) (fp.ld_emax - fp.ld_prec)) as [_|Hov];
        [|unfold fp.ld_emax, fp.ld_prec in Hov; lia].
      replace (ex + - a + k) with (k - (a + - ex)) by lia.
      destruct (truncate_bounds m' k (a + - ex) ltac:(lia) ltac:(lia))
        as (T & ET & HT).
      rewrite Z.pow_add_r in HT by lia.
      rewrite Pos2Z.inj_mul in Herr.
      assert (PA : 1 <= 2 ^ a)
        by (pose proof (Z.pow_pos_nonneg 2 a); lia).
      assert (HB : Zpos mx <= 2 ^ (- ex)).
      { destruct (Z.eq_dec ex (-63)) as [->|Hne].
        - destruct (Z.ltb_spec (-63) (-63)); [lia|].
          cbn [orb] in Hone. apply Z.eqb_eq in Hone. rewrite Hone.
          reflexivity.
        - assert (2 ^ 64 <= 2 ^ (- ex)) by (apply Z.pow_le_mono_r; lia).
          lia. }
      assert (HN : 2 ^ (d - 64) * 2 ^ 63 <= Zpos mx * Zpos my)
        by (rewrite <- Z.pow_add_r by lia;
            replace (d - 64 + 63) with (d - 1) by lia; assumption).
      destruct (product_truncation_core p t (Zpos mx) (Zpos my) (2 ^ a)
                  (2 ^ (- ex)) (2 ^ (d - 64)) (Zpos m' * 2 ^ k) T
                  (2 ^ 63) (2 ^ 52)) as [BT Berr];
        try assumption; try lia.
      exists T. unfold fp.to_size_t. rewrite ET.
      destruct (Z.leb_spec 0 T); [|lia].
      destruct (Z.ltb_spec T (2 ^ 64)); [|lia].
      split; [reflexivity|]. split; assumption.
Qed.

(** ** The member functions as functions of their inputs *)

Lemma minimum_free_run (m : local_monitor) (t : Z) :
  minimum_free_by_bytes_and_percent t m =
  match min_free_by_percent (last_free_space_percent_threshold m) t with
  | Some by_percent =>
      (Done (last_free_space_bytes_threshold m, by_percent), m, [])
  | None => (Undefined, m, [])
  end.
Proof.
  unfold minimum_free_by_bytes_and_percent, bind, get.
  destruct (min_free_by_percent _ t); reflexivity.
Qed.

Lemma refresh_configuration_eq (w : env) (m : local_monitor) :
  refresh_configuration w m = (Done tt, configured w m, info_events w m).
Proof.
  destruct m as [st pt sf p b].
  unfold refresh_configuration, configured, info_events, bind, get, modify,
    emit, ret, get_config_alert_threshold_percent,
    get_config_alert_threshold_bytes, with_percent_threshold,
    with_bytes_threshold.
  cbn [last_free_space_percent_threshold last_free_space_bytes_threshold
       _state _path_for_test _statvfs_for_test].
  destruct (Z.eqb_spec p (storage_space_alert_free_threshold_percent w));
    cbn [negb last_free_space_percent_threshold
         last_free_space_bytes_threshold _state _path_for_test
         _statvfs_for_test app];
    destruct (Z.eqb_spec b (storage_space_alert_free_threshold_bytes w));
    cbn [negb app last_free_space_percent_threshold
         last_free_space_bytes_threshold _state _path_for_test
         _statvfs_for_test]; subst; reflexivity.
Qed.

Lemma get_disks_eq (w : env) (m : local_monitor) :
  co_await (get_disks w) m =
  match probe w m with
  | StatOk svfs => (Done [disk_of_statvfs w svfs], m, probe_events w m)
  | StatErr e => (Threw e, m, probe_events w m)
  end.
Proof.
  unfold co_await, get_disks, get_statvfs, probe, probe_events, probe_path,
    bind, get, emit, ret, co_await.
  destruct (_statvfs_for_test m) as [func|]; cbn [app].
  - destruct (func _); reflexivity.
  - destruct (engine_statvfs w _); reflexivity.
Qed.

Lemma evaluate_loop (l : list disk) (m : local_monitor) :
  for_each l (fun d =>
    vassert (total_nonzero d) "Total disk space cannot be zero." ;;
    '(min_by_bytes, min_by_percent) <- minimum_free_by_bytes_and_percent (total d) ;;
    let min_space := Z.min min_by_percent min_by_bytes in
    emit (EvDebug min_by_percent min_by_bytes (free d) (free d <=? min_space)) ;;
    if free d <=? min_space then
      set_alert low_space ;;
      maybe_log_space_error d
    else ret tt) m =
  let '(r, a, tr) :=
    evaluate (last_free_space_percent_threshold m)
      (last_free_space_bytes_threshold m) l
      (storage_space_alert (_state m)) in
  (r, with_state (with_alert a (_state m)) m, tr).
Proof.
  revert m. induction l as [|d l IH]; intros m.
  - destruct m as [[v u ds al] pt sf p b]. reflexivity.
  - cbn [for_each evaluate]. unfold bind at 1. unfold bind at 1.
    unfold vassert at 1.
    destruct (total_nonzero d);
      [|destruct m as [[v u ds al] pt sf p b]; reflexivity].
    unfold bind at 1. rewrite minimum_free_run.
    destruct (min_free_by_percent (last_free_space_percent_threshold m)
                (total d)) as [T|] eqn:ET;
      [|destruct m as [[v u ds al] pt sf p b]; reflexivity].
    unfold bind at 1. unfold emit at 1.
    set (f := Z.min T (last_free_space_bytes_threshold m)).
    destruct (free d <=? f) eqn:Hlow.
    + unfold bind at 1. unfold set_alert at 1, bind at 1, modify, emit.
      unfold maybe_log_space_error, bind at 1. rewrite minimum_free_run.
      cbn [last_free_space_percent_threshold last_free_space_bytes_threshold
           with_state].
      rewrite ET. unfold emit.
      rewrite IH.
      cbn [last_free_space_percent_threshold last_free_space_bytes_threshold
           with_state with_alert _state storage_space_alert].
      destruct (evaluate _ _ l low_space) as [[r a] tr].
      destruct m as [[v u ds al] pt sf p b]. reflexivity.
    + unfold ret at 1. rewrite IH.
      destruct (evaluate _ _ l _) as [[r a] tr].
      destruct m as [[v u ds al] pt sf p b]. reflexivity.
Qed.

Lemma update_alert_state_eq (m : local_monitor) :
  update_alert_state m =
  let '(r, a, tr) :=
    evaluate (last_free_space_percent_threshold m)
      (last_free_space_bytes_threshold m) (disks (_state m)) ok in
  (r, with_state (with_alert a (_state m)) m, EvSetAlert ok :: tr).
Proof.
  unfold update_alert_state. unfold bind at 1.
  unfold set_alert at 1, bind at 1, modify, emit.
  unfold bind at 1, get. rewrite evaluate_loop.
  cbn [last_free_space_percent_threshold last_free_space_bytes_threshold
       with_state with_alert _state storage_space_alert disks].
  destruct (evaluate _ _ _ ok) as [[r a] tr].
  destruct m as [[v u ds al] pt sf p b]. reflexivity.
Qed.

Lemma update_state_eq (w : env) (m : local_monitor) :
  update_state w m =
  match probe w m with
  | StatErr e => (Threw e, configured w m, info_events w m ++ probe_events w m)
  | StatOk svfs =>
      let '(r, a, tr) :=
        evaluate (storage_space_alert_free_threshold_percent w)
          (storage_space_alert_free_threshold_bytes w)
          [disk_of_statvfs w svfs] ok in
      (r, with_state (with_alert a (fresh_state w svfs)) (configured w m),
       info_events w m ++ probe_events w m
         ++ EvStore (fresh_state w svfs) :: EvSetAlert ok :: tr)
  end.
Proof.
  unfold update_state. unfold bind at 1. rewrite refresh_configuration_eq.
  unfold bind at 1. rewrite get_disks_eq.
  change (probe w (configured w m)) with (probe w m).
  change (probe_events w (configured w m)) with (probe_events w m).
  destruct (probe w m) as [svfs|e]; [|reflexivity].
  unfold bind at 1. unfold store at 1, bind at 1, modify, emit.
  rewrite update_alert_state_eq.
  cbn [last_free_space_percent_threshold last_free_space_bytes_threshold
       with_state with_alert _state storage_space_alert disks configured].
  fold (disk_of_statvfs w svfs). fold (fresh_state w svfs).
  destruct (evaluate _ _ _ ok) as [[r a] tr].
  reflexivity.
Qed.

Lemma min_space_eq (m : local_monitor) (d : disk) :
  min_space m d =
  match min_free_by_percent (last_free_space_percent_threshold m) (total d)
  with
  | Some by_percent =>
      Some (Z.min by_percent (last_free_space_bytes_threshold m))
  | None => None
  end.
Proof.
  unfold min_space. rewrite minimum_free_run.
  destruct (min_free_by_percent _ _); reflexivity.
Qed.

(** For a percentage up to 100 and a 64-bit size the floor is defined. *)
Lemma min_space_defined (m : local_monitor) (d : disk) :
  0 <= last_free_space_percent_threshold m <= 100 ->
  0 <= total d < 2 ^ 64 ->
  exists T, min_free_by_percent (last_free_space_percent_threshold m)
              (total d) = Some T /\
            min_space m d = Some (Z.min T (last_free_space_bytes_threshold m)).
Proof.
  intros Hp Ht.
  destruct (min_free_by_percent_spec _ _ Hp Ht) as (T & ET & _).
  exists T. split; [assumption|]. rewrite min_space_eq, ET. reflexivity.
Qed.

Lemma evaluate_quiet (p b : Z) (l : list disk) (a : disk_space_alert) :
  Forall quiet (snd (evaluate p b l a)).
Proof.
  revert a. induction l as [|d l IH]; intros a; cbn [evaluate].
  - constructor.
  - destruct (total_nonzero d); [|constructor].
    destruct (min_free_by_percent p (total d)) as [T|]; [|constructor].
    destruct (free d <=? Z.min T b).
    + specialize (IH low_space).
      destruct (evaluate p b l low_space) as [[r a'] tr]. cbn [snd] in *.
      repeat constructor. assumption.
    + specialize (IH a).
      destruct (evaluate p b l a) as [[r a'] tr]. cbn [snd] in *.
      repeat constructor. assumption.
Qed.

Lemma evaluate_done (m : local_monitor) (l : list disk)
  (a : disk_space_alert) :
  0 <= last_free_space_percent_threshold m <= 100 ->
  Forall (fun d => 0 < total d < 2 ^ 64) l ->
  exists tr,
    evaluate (last_free_space_percent_threshold m)
      (last_free_space_bytes_threshold m) l a =
    (Done tt, if existsb (below_floor m) l then low_space else a, tr) /\
    space_error_disks tr = filter (below_floor m) l.
Proof.
  intros Hp Hl. revert a.
  induction Hl as [|d l Hd Hl IH]; intros a; cbn [evaluate existsb filter].
  - exists []. split; reflexivity.
  - rewrite total_nonzero_spec.
    destruct (Z.eqb_spec (total d) 0) as [E|_]; [lia|]. cbn [negb].
    destruct (min_space_defined m d Hp ltac:(lia)) as (T & ET & Ems).
    rewrite ET. unfold below_floor at 1 3. rewrite Ems.
    destruct (free d <=? Z.min T (last_free_space_bytes_threshold m)).
    + destruct (IH low_space) as (tr & -> & Htr).
      eexists. cbn [orb]. split.
      * destruct (existsb (below_floor m) l); reflexivity.
      * unfold space_error_disks in *. cbn [flat_map app]. now rewrite Htr.
    + destruct (IH a) as (tr & -> & Htr).
      eexists. cbn [orb]. split; [reflexivity|].
      unfold space_error_disks in *. cbn [flat_map app]. assumption.
Qed.

Lemma evaluate_fatal (m : local_monitor) (l : list disk)
  (a : disk_space_alert) :
  0 <= last_free_space_percent_threshold m <= 100 ->
  Forall (fun d => 0 <= total d < 2 ^ 64) l ->
  Exists (fun d => total d = 0) l ->
  fst (fst (evaluate (last_free_space_percent_threshold m)
              (last_free_space_bytes_threshold m) l a)) =
  Fatal "Total disk space cannot be zero.".
Proof.
  intros Hp Hl Hex. revert a.
  induction Hl as [|d l Hd Hl IH]; intros a; [inversion Hex|].
  cbn [evaluate]. rewrite total_nonzero_spec.
  destruct (Z.eqb_spec (total d) 0) as [E|N]; [reflexivity|]. cbn [negb].
  assert (Hex' : Exists (fun d => total d = 0) l)
    by (inversion Hex; subst; [contradiction | assumption]).
  destruct (min_space_defined m d Hp Hd) as (T & -> & _).
  destruct (free d <=? _).
  - specialize (IH Hex' low_space).
    destruct (evaluate _ _ l low_space) as [[r a'] tr]. exact IH.
  - specialize (IH Hex' a).
    destruct (evaluate _ _ l a) as [[r a'] tr]. exact IH.
Qed.

(** ** The threshold policy *)

(** C1, as stated, fails: with a 29% threshold and a byte threshold of 1000,
    the evaluator's floor for a disk of 100 bytes is 28, although
    min(29/100 x 100, 1000) is exactly 29; a disk with 29 bytes free is
    therefore left [ok]. *)
Lemma C1_floor_differs_from_exact_minimum :
  let d := sample_disk 29 100 in
  let m := sample_monitor 29 1000 [d] in
  0 < total d /\
  min_space m d = Some 28 /\
  (ThresholdPolicy_floor (total d) 29 1000 == 29)%Q /\
  ~ (inject_Z 28 == ThresholdPolicy_floor (total d) 29 1000)%Q /\
  storage_space_alert (_state (snd (fst (update_alert_state m)))) = ok.
Proof.
  cbv zeta. split; [cbn; lia|]. split; [vm_compute; reflexivity|].
  split; [vm_compute; reflexivity|]. split; [|vm_compute; reflexivity].
  vm_compute. discriminate.
Qed.

(** C1, amended: for every disk with 0 < total < 2^64 and thresholds with
    percent <= 100, the floor used by the evaluator is min(T, bytes), where T
    is the percentage term as the code computes it (percent / 100.0 in
    double, times total in long double, truncated to size_t).  T never
    exceeds total and differs from the exact percent/100 x total by at most
    2 + total / 2^52. *)
Theorem C1_floor_is_min_of_bytes_and_rounded_percent
  (m : local_monitor) (d : disk) :
  0 <= last_free_space_percent_threshold m <= 100 ->
  0 < total d < 2 ^ 64 ->
  disks (_state m) = [d] ->
  exists T,
    minimum_free_by_bytes_and_percent (total d) m =
      (Done (last_free_space_bytes_threshold m, T), m, []) /\
    min_space m d = Some (Z.min T (last_free_space_bytes_threshold m)) /\
    0 <= T <= total d /\
    2 ^ 52 * Z.abs (100 * T - last_free_space_percent_threshold m * total d)
      <= 100 * (2 * 2 ^ 52 + total d) /\
    storage_space_alert (_state (snd (fst (update_alert_state m)))) =
      (if free d <=? Z.min T (last_free_space_bytes_threshold m)
       then low_space else ok).
Proof.
  intros Hp Ht Hd.
  destruct (min_free_by_percent_spec _ (total d) Hp ltac:(lia))
    as (T & ET & HT & Herr).
  exists T. split; [rewrite minimum_free_run, ET; reflexivity|].
  split; [rewrite min_space_eq, ET; reflexivity|].
  split; [assumption|]. split; [assumption|].
  rewrite update_alert_state_eq, Hd. cbn [evaluate].
  rewrite total_nonzero_spec.
  destruct (Z.eqb_spec (total d) 0); [lia|]. cbn [negb]. rewrite ET.
  destruct (free d <=? _); reflexivity.
Qed.

Lemma C1_floor_witness :
  exists T,
    minimum_free_by_bytes_and_percent (1000 * GiB)
      (sample_monitor 10 (100 * GiB) [sample_disk (50 * GiB) (1000 * GiB)]) =
      (Done (100 * GiB, T),
       sample_monitor 10 (100 * GiB) [sample_disk (50 * GiB) (1000 * GiB)],
       []) /\
    min_space
      (sample_monitor 10 (100 * GiB) [sample_disk (50 * GiB) (1000 * GiB)])
      (sample_disk (50 * GiB) (1000 * GiB)) = Some (Z.min T (100 * GiB)) /\
    0 <= T <= 1000 * GiB /\
    2 ^ 52 * Z.abs (100 * T - 10 * (1000 * GiB))
      <= 100 * (2 * 2 ^ 52 + 1000 * GiB) /\
    storage_space_alert
      (_state (snd (fst (update_alert_state
         (sample_monitor 10 (100 * GiB)
            [sample_disk (50 * GiB) (1000 * GiB)]))))) =
      (if 50 * GiB <=? Z.min T (100 * GiB) then low_space else ok).
Proof.
  apply (C1_floor_is_min_of_bytes_and_rounded_percent
           (sample_monitor 10 (100 * GiB) [sample_disk (50 * GiB) (1000 * GiB)])
           (sample_disk (50 * GiB) (1000 * GiB))).
  - simpl. lia.
  - vm_compute. split; reflexivity.
  - reflexivity.
Defined.

(** ** The alert evaluator *)

(** C2: for every sequence of disks with total > 0 (64-bit sizes, percent up
    to 100) the evaluation returns; the aggregate alert is [low_space] if and
    only if some disk has free <= its floor, and [ok] when every disk has
    free > its floor; the loop goes on after a low disk, and the low-space
    diagnostic is issued for every disk below its floor, in order. *)
Theorem C2_low_space_iff_some_disk_at_or_below_floor (m : local_monitor) :
  0 <= last_free_space_percent_threshold m <= 100 ->
  Forall (fun d => 0 < total d < 2 ^ 64) (disks (_state m)) ->
  exists m' tr,
    update_alert_state m = (Done tt, m', tr) /\
    disks (_state m') = disks (_state m) /\
    (forall d, In d (disks (_state m)) -> exists f, min_space m d = Some f) /\
    (storage_space_alert (_state m') = low_space <->
     exists d f, In d (disks (_state m)) /\ min_space m d = Some f /\
                 free d <= f) /\
    ((forall d f, In d (disks (_state m)) -> min_space m d = Some f ->
                  f < free d) ->
     storage_space_alert (_state m') = ok) /\
    space_error_disks tr = filter (below_floor m) (disks (_state m)).
Proof.
  intros Hp Hl. rewrite update_alert_state_eq.
  destruct (evaluate_done m (disks (_state m)) ok Hp Hl) as (tr & -> & Htr).
  do 2 eexists. split; [reflexivity|].
  cbn [with_state with_alert _state disks storage_space_alert].
  split; [reflexivity|].
  assert (Hdef : forall d, In d (disks (_state m)) ->
                 exists f, min_space m d = Some f).
  { intros d Hin. rewrite Forall_forall in Hl.
    destruct (min_space_defined m d Hp) as (T & _ & ->).
    - specialize (Hl d Hin). cbn beta in Hl. lia.
    - eauto. }
  assert (Hiff : existsb (below_floor m) (disks (_state m)) = true <->
               exists d f, In d (disks (_state m)) /\ min_space m d = Some f /\
                           free d <= f).
  { rewrite existsb_exists. split.
    - intros (d & Hin & Hb). unfold below_floor in Hb.
      destruct (min_space m d) as [f|] eqn:E; [|discriminate].
      exists d, f. apply Z.leb_le in Hb. auto.
    - intros (d & f & Hin & E & Hle). exists d. split; [assumption|].
      unfold below_floor. rewrite E. now apply Z.leb_le. }
  split; [exact Hdef|]. split; [|split].
  - destruct (existsb (below_floor m) (disks (_state m))).
    + split; [intros _; now apply Hiff | reflexivity].
    + split; [discriminate|]. intros H. apply Hiff in H. discriminate.
  - intros Hall.
    destruct (existsb (below_floor m) (disks (_state m))) eqn:E;
      [|reflexivity].
    destruct Hiff as [Hiff _]. destruct (Hiff eq_refl) as (d & f & Hin & Ef & Hle).
    specialize (Hall d f Hin Ef). lia.
  - cbn [space_error_disks flat_map app]. exact Htr.
Qed.

Lemma C2_low_space_witness :
  exists m' tr,
    update_alert_state
      (sample_monitor 10 1000
         [sample_disk 50 100; sample_disk 5 100; sample_disk 10 200]) =
      (Done tt, m', tr) /\
    storage_space_alert (_state m') = low_space /\
    space_error_disks tr = [sample_disk 5 100; sample_disk 10 200].
Proof.
  destruct (C2_low_space_iff_some_disk_at_or_below_floor
              (sample_monitor 10 1000
                 [sample_disk 50 100; sample_disk 5 100; sample_disk 10 200]))
    as (m' & tr & E & _ & _ & Hiff & _ & Htr).
  - simpl. lia.
  - repeat constructor.
  - exists m', tr. split; [exact E|]. split.
    + apply Hiff. exists (sample_disk 5 100), 10.
      split; [right; left; reflexivity|].
      split; [vm_compute; reflexivity | simpl; lia].
    + exact Htr.
Defined.

(** C5: the evaluator rejects a snapshot holding a disk with total = 0 by the
    fatal assertion, so such a disk is never classified [ok]; when every disk
    has total <> 0 the assertion does not fire and the evaluation returns. *)
Theorem C5_zero_total_is_fatal (m : local_monitor) :
  0 <= last_free_space_percent_threshold m <= 100 ->
  Forall (fun d => 0 <= total d < 2 ^ 64) (disks (_state m)) ->
  (Exists (fun d => total d = 0) (disks (_state m)) ->
   fst (fst (update_alert_state m)) =
   Fatal "Total disk space cannot be zero.") /\
  (Forall (fun d => total d <> 0) (disks (_state m)) ->
   fst (fst (update_alert_state m)) = Done tt).
Proof.
  intros Hp Hl. rewrite update_alert_state_eq. split.
  - intros Hex.
    pose proof (evaluate_fatal m (disks (_state m)) ok Hp Hl Hex) as H.
    destruct (evaluate _ _ _ ok) as [[r a] tr]. exact H.
  - intros Hnz.
    assert (Hl' : Forall (fun d => 0 < total d < 2 ^ 64) (disks (_state m))).
    { rewrite Forall_forall in *. intros d Hin.
      specialize (Hl d Hin). specialize (Hnz d Hin). cbn beta in *. lia. }
    destruct (evaluate_done m (disks (_state m)) ok Hp Hl') as (tr & -> & _).
    reflexivity.
Qed.

Lemma C5_zero_total_witness :
  fst (fst (update_alert_state
              (sample_monitor 10 1000 [sample_disk 50 100; sample_disk 0 0])))
  = Fatal "Total disk space cannot be zero.".
Proof.
  apply (C5_zero_total_is_fatal
           (sample_monitor 10 1000 [sample_disk 50 100; sample_disk 0 0])).
  - simpl. lia.
  - repeat constructor; simpl; lia.
  - right. left. reflexivity.
Defined.

(** ** The refresh cycle *)

Lemma quiet_no_statvfs (tr : list event) :
  Forall quiet tr -> filter is_statvfs tr = [].
Proof.
  induction 1 as [|e tr He _ IH]; [reflexivity|].
  destruct e; try contradiction; exact IH.
Qed.

Lemma quiet_no_info (tr : list event) :
  Forall quiet tr -> filter is_info tr = [].
Proof.
  induction 1 as [|e tr He _ IH]; [reflexivity|].
  destruct e; try contradiction; exact IH.
Qed.

Lemma quiet_no_views (tr : list event) (st : local_state) :
  Forall quiet tr -> reader_views st tr = [].
Proof.
  intros H. revert st. induction H as [|e tr He _ IH]; intros st;
    [reflexivity|].
  destruct e; try contradiction; apply IH.
Qed.

Lemma update_state_done_inv (w : env) (m m' : local_monitor)
  (tr : list event) :
  update_state w m = (Done tt, m', tr) ->
  exists svfs a tr',
    probe w m = StatOk svfs /\
    evaluate (storage_space_alert_free_threshold_percent w)
      (storage_space_alert_free_threshold_bytes w)
      [disk_of_statvfs w svfs] ok = (Done tt, a, tr') /\
    m' = with_state (with_alert a (fresh_state w svfs)) (configured w m) /\
    tr = info_events w m ++ probe_events w m
           ++ EvStore (fresh_state w svfs) :: EvSetAlert ok :: tr'.
Proof.
  rewrite update_state_eq. destruct (probe w m) as [svfs|e]; [|discriminate].
  destruct (evaluate _ _ _ ok) as [[r a] tr'] eqn:E. intros H.
  injection H as Hr Hm Ht. subst. exists svfs, a, tr'. auto.
Qed.

(** C4: when the disk probe fails, the failure leaves [update_state] as an
    exception and the cached [local_state] is unchanged: [_state] is never
    written, so [get_state_cached] still returns the previous snapshot. *)
Theorem C4_probe_failure_keeps_cached_state (w : env) (m : local_monitor)
  (e : string) :
  probe w m = StatErr e ->
  exists m' tr,
    update_state w m = (Threw e, m', tr) /\
    get_state_cached m' = get_state_cached m /\
    state_writes (_state m) tr = [].
Proof.
  intros Hprobe. rewrite update_state_eq, Hprobe.
  do 2 eexists. split; [reflexivity|]. split; [reflexivity|].
  unfold info_events, probe_events.
  destruct (_ =? _), (_ =? _), (_statvfs_for_test m); reflexivity.
Qed.

Lemma C4_probe_failure_witness :
  exists m' tr,
    update_state (sample_env 5 500 (StatErr "No such file or directory"))
      (sample_monitor 10 1000 [sample_disk 50 100]) =
      (Threw "No such file or directory", m', tr) /\
    get_state_cached m' =
      get_state_cached (sample_monitor 10 1000 [sample_disk 50 100]) /\
    state_writes (_state (sample_monitor 10 1000 [sample_disk 50 100])) tr
      = [].
Proof.
  apply (C4_probe_failure_keeps_cached_state
           (sample_env 5 500 (StatErr "No such file or directory"))
           (sample_monitor 10 1000 [sample_disk 50 100])).
  reflexivity.
Defined.

Lemma update_state_done_run (w : env) (m : local_monitor) :
  fst (fst (update_state w m)) = Done tt ->
  update_state w m =
  (Done tt, snd (fst (update_state w m)), snd (update_state w m)).
Proof.
  destruct (update_state w m) as [[r m'] tr]. cbn [fst snd].
  intros ->. reflexivity.
Qed.

(** C9: every successful [update_state] records a disk, and the path of the
    disk recorded in the snapshot is the configured data directory, also
    when the test path override is set: the override only selects the path
    the one filesystem query is issued against, and the byte counts of the
    recorded disk are those of that query. *)
Theorem C9_disk_path_is_data_directory (w : env) (m : local_monitor) :
  fst (fst (update_state w m)) = Done tt ->
  (exists d svfs,
     disks (get_state_cached (snd (fst (update_state w m)))) = [d] /\
     path d = data_directory w /\
     probe w m = StatOk svfs /\
     free d = wrap64 (f_bfree svfs * f_frsize svfs) /\
     total d = wrap64 (f_blocks svfs * f_frsize svfs)) /\
  Forall (fun d => path d = data_directory w)
    (disks (_state (snd (fst (update_state w m))))) /\
  filter is_statvfs (snd (update_state w m))
    = [EvStatvfs (probe_path w m)] /\
  (_path_for_test m <> EmptyString -> probe_path w m = _path_for_test m) /\
  (_path_for_test m = EmptyString -> probe_path w m = data_directory w).
Proof.
  intros H. apply update_state_done_run in H.
  destruct (update_state_done_inv w m _ _ H)
    as (svfs & a & tr' & Hprobe & Hev & -> & ->).
  split.
  { exists (disk_of_statvfs w svfs), svfs.
    repeat split; try reflexivity. exact Hprobe. }
  split; [repeat constructor|]. split.
  - rewrite !filter_app.
    assert (E1 : filter is_statvfs (info_events w m) = [])
      by (unfold info_events; destruct (_ =? _), (_ =? _); reflexivity).
    assert (E2 : filter is_statvfs (probe_events w m)
                 = [EvStatvfs (probe_path w m)])
      by (unfold probe_events; destruct (_statvfs_for_test m); reflexivity).
    rewrite E1, E2. cbn [app filter is_statvfs]. f_equal.
    pose proof (evaluate_quiet (storage_space_alert_free_threshold_percent w)
                  (storage_space_alert_free_threshold_bytes w)
                  [disk_of_statvfs w svfs] ok) as Hq.
    rewrite Hev in Hq. cbn [snd] in Hq.
    apply quiet_no_statvfs. assumption.
  - unfold probe_path. split; intros Hp.
    + destruct (String.eqb_spec (_path_for_test m) EmptyString);
        [contradiction | reflexivity].
    + rewrite Hp. reflexivity.
Qed.

Lemma C9_disk_path_witness :
  (exists d svfs,
     disks (get_state_cached (snd (fst (update_state
       (sample_env 10 1000
          (StatOk {| f_frsize := 4096; f_blocks := 1000; f_bfree := 500 |}))
       (set_path_for_test "/tmp/test" (sample_monitor 10 1000 []))))))
       = [d] /\
     path d = "/var/lib/redpanda/data"%string /\
     probe
       (sample_env 10 1000
          (StatOk {| f_frsize := 4096; f_blocks := 1000; f_bfree := 500 |}))
       (set_path_for_test "/tmp/test" (sample_monitor 10 1000 []))
       = StatOk svfs /\
     free d = wrap64 (f_bfree svfs * f_frsize svfs) /\
     total d = wrap64 (f_blocks svfs * f_frsize svfs)) /\
  filter is_statvfs (snd (update_state
       (sample_env 10 1000
          (StatOk {| f_frsize := 4096; f_blocks := 1000; f_bfree := 500 |}))
       (set_path_for_test "/tmp/test" (sample_monitor 10 1000 []))))
  = [EvStatvfs "/tmp/test"].
Proof.
  destruct (C9_disk_path_is_data_directory
              (sample_env 10 1000
                 (StatOk {| f_frsize := 4096; f_blocks := 1000;
                            f_bfree := 500 |}))
              (set_path_for_test "/tmp/test" (sample_monitor 10 1000 [])))
    as (H1 & _ & H2 & _).
  - vm_compute. reflexivity.
  - split; [exact H1 | exact H2].
Defined.

(** C10: every snapshot produced by a successful [update_state] holds
    exactly one disk, whatever the configuration and the test overrides. *)
Theorem C10_snapshot_has_one_disk (w : env) (m : local_monitor) :
  fst (fst (update_state w m)) = Done tt ->
  List.length (disks (get_state_cached (snd (fst (update_state w m)))))
  = 1%nat.
Proof.
  intros H. apply update_state_done_run in H.
  destruct (update_state_done_inv w m _ _ H)
    as (svfs & a & tr' & _ & _ & -> & _).
  reflexivity.
Qed.

Lemma C10_snapshot_witness :
  List.length (disks (get_state_cached (snd (fst (update_state
    (sample_env 10 1000
       (StatOk {| f_frsize := 4096; f_blocks := 1000; f_bfree := 500 |}))
    (sample_monitor 0 0 [sample_disk 1 2; sample_disk 3 4])))))) = 1%nat.
Proof.
  apply (C10_snapshot_has_one_disk
           (sample_env 10 1000
              (StatOk {| f_frsize := 4096; f_blocks := 1000;
                         f_bfree := 500 |}))
           (sample_monitor 0 0 [sample_disk 1 2; sample_disk 3 4])).
  vm_compute. reflexivity.
Defined.

(** ** The rate-limited logger *)

Lemma log_event_interval (now : Z) (lg : clusterlog) (e : event) :
  despam_interval (log_event now lg e) = despam_interval lg.
Proof.
  destruct e; cbn [log_event]; try reflexivity.
  destruct (rate_limit_check now lg); reflexivity.
Qed.

Lemma log_trace_interval (now : Z) (tr : list event) (lg : clusterlog) :
  despam_interval (log_trace now lg tr) = despam_interval lg.
Proof.
  unfold log_trace. revert lg.
  induction tr as [|e tr IH]; intros lg; cbn [fold_left]; [reflexivity|].
  rewrite IH. apply log_event_interval.
Qed.

Lemma log_event_window (t0 now : Z) (old : list log_line) (lg : clusterlog)
  (e : event) :
  t0 <= now < t0 + despam_interval lg ->
  window_inv t0 old lg -> window_inv t0 old (log_event now lg e).
Proof.
  intros Hnow (new & Hlines & Hnew).
  destruct e; cbn [log_event]; try (exists new; split; assumption).
  - (* info, percent *)
    exists new. split; [|exact Hnew].
    unfold error_lines in *. cbn [lines]. rewrite filter_app.
    cbn [filter is_error_line level]. rewrite app_nil_r. exact Hlines.
  - (* info, bytes *)
    exists new. split; [|exact Hnew].
    unfold error_lines in *. cbn [lines]. rewrite filter_app.
    cbn [filter is_error_line level]. rewrite app_nil_r. exact Hlines.
  - (* debug *)
    exists new. split; [|exact Hnew].
    unfold error_lines in *. cbn [lines]. rewrite filter_app.
    cbn [filter is_error_line level]. rewrite app_nil_r. exact Hlines.
  - (* the rate-limited error *)
    unfold rate_limit_check.
    destruct Hnew as [->|(Hlen & t & Hlast & Ht)].
    + destruct (last_emitted lg) as [t|].
      * destruct (t + despam_interval lg <=? now);
          [|exists []; split; [assumption | left; reflexivity]].
        eexists. split.
        -- unfold error_lines in *. cbn [lines]. rewrite filter_app.
           cbn [filter is_error_line level]. rewrite Hlines, app_nil_r.
           reflexivity.
        -- right. split; [reflexivity|]. exists now. cbn. split; [reflexivity|lia].
      * eexists. split.
        -- unfold error_lines in *. cbn [lines]. rewrite filter_app.
           cbn [filter is_error_line level]. rewrite Hlines, app_nil_r.
           reflexivity.
        -- right. split; [reflexivity|]. exists now. cbn. split; [reflexivity|lia].
    + rewrite Hlast.
      destruct (Z.leb_spec (t + despam_interval lg) now); [lia|].
      exists new. split; [assumption|]. right. split; [assumption|].
      exists t. split; assumption.
Qed.

Lemma log_trace_window (t0 now : Z) (old : list log_line) (tr : list event)
  (lg : clusterlog) :
  t0 <= now < t0 + despam_interval lg ->
  window_inv t0 old lg -> window_inv t0 old (log_trace now lg tr).
Proof.
  unfold log_trace. revert lg.
  induction tr as [|e tr IH]; intros lg Hnow Hinv; cbn [fold_left];
    [assumption|].
  apply IH.
  - rewrite log_event_interval. assumption.
  - apply log_event_window; assumption.
Qed.

Lemma cycle_interval (p : process) (c : env * Z) :
  despam_interval (logger (cycle p c)) = despam_interval (logger p).
Proof.
  unfold cycle. destruct (running p); [|reflexivity].
  destruct (update_state (fst c) (monitor p)) as [[r m'] tr].
  cbn [logger]. apply log_trace_interval.
Qed.

Lemma cycle_window (t0 : Z) (old : list log_line) (p : process)
  (c : env * Z) :
  t0 <= snd c < t0 + despam_interval (logger p) ->
  window_inv t0 old (logger p) -> window_inv t0 old (logger (cycle p c)).
Proof.
  intros Hnow Hinv. unfold cycle. destruct (running p); [|assumption].
  destruct (update_state (fst c) (monitor p)) as [[r m'] tr].
  cbn [logger]. apply log_trace_window; assumption.
Qed.

Lemma run_window (t0 : Z) (old : list log_line) (cycles : list (env * Z))
  (p : process) :
  Forall (fun c => t0 <= snd c < t0 + despam_interval (logger p)) cycles ->
  window_inv t0 old (logger p) ->
  window_inv t0 old (logger (run p cycles)) /\
  despam_interval (logger (run p cycles)) = despam_interval (logger p).
Proof.
  unfold run. revert p.
  induction cycles as [|c cycles IH]; intros p Hall Hinv; cbn [fold_left].
  - split; [assumption | reflexivity].
  - inversion Hall as [|c' l' Hc Hrest]; subst.
    destruct (IH (cycle p c)) as [H1 H2].
    + rewrite cycle_interval. assumption.
    + apply cycle_window; assumption.
    + split; [assumption|]. rewrite H2. apply cycle_interval.
Qed.

Lemma window_inv_start (t0 : Z) (lg : clusterlog) :
  window_inv t0 (error_lines lg) lg.
Proof. exists []. split; [now rewrite app_nil_r | left; reflexivity]. Qed.

Lemma window_inv_length (t0 : Z) (old : list log_line) (lg : clusterlog) :
  window_inv t0 old lg ->
  exists new, error_lines lg = old ++ new /\ (List.length new <= 1)%nat.
Proof.
  intros (new & E & [->|[Hlen _]]); exists new || exists [];
    (split; [assumption | cbn; lia]).
Qed.

Lemma two_cycles_window (lg : clusterlog) (m : local_monitor) (w1 w2 : env)
  (t1 t2 : Z) :
  t1 <= t2 < t1 + despam_interval lg ->
  exists new,
    error_lines (logger (run {| monitor := m; logger := lg; running := true |}
                           [(w1, t1); (w2, t2)]))
      = error_lines lg ++ new /\
    (List.length new <= 1)%nat.
Proof.
  intros Ht.
  apply (window_inv_length t1).
  apply (run_window t1 (error_lines lg) [(w1, t1); (w2, t2)]
           {| monitor := m; logger := lg; running := true |}).
  - repeat constructor; cbn [snd logger]; lia.
  - apply window_inv_start.
Qed.

(** C8: whatever the disks report, however many refresh cycles run within
    one despam interval (a window of that length starting at [t0]), at most
    one error line is added to the log in that window; the interval of the
    limiter stays the same. *)
Theorem C8_at_most_one_error_line_per_despam_interval (p : process)
  (cycles : list (env * Z)) (t0 : Z) :
  Forall (fun c => t0 <= snd c < t0 + despam_interval (logger p)) cycles ->
  (exists new,
     error_lines (logger (run p cycles)) = error_lines (logger p) ++ new /\
     (List.length new <= 1)%nat) /\
  despam_interval (logger (run p cycles)) = despam_interval (logger p).
Proof.
  intros Hall.
  destruct (run_window t0 (error_lines (logger p)) cycles p Hall
              (window_inv_start t0 (logger p))) as [Hinv Hint].
  split; [|assumption]. eapply window_inv_length. eassumption.
Qed.

Lemma C8_despam_witness :
  let low := sample_env 10 (100 * GiB)
               (StatOk {| f_frsize := 4096;
                          f_blocks := 1000 * GiB / 4096;
                          f_bfree := 50 * GiB / 4096 |}) in
  let p := {| monitor := sample_monitor 10 (100 * GiB) [];
              logger := {| despam_interval := 3600;
                           last_emitted := None;
                           lines := [] |};
              running := true |} in
  (exists new,
     error_lines (logger (run p [(low, 100); (low, 160); (low, 220)]))
       = error_lines (logger p) ++ new /\
     (List.length new <= 1)%nat) /\
  despam_interval (logger (run p [(low, 100); (low, 160); (low, 220)]))
    = despam_interval (logger p).
Proof.
  intros low p.
  apply (C8_at_most_one_error_line_per_despam_interval p
           [(low, 100); (low, 160); (low, 220)] 100).
  repeat constructor; simpl; lia.
Defined.

(** C7: a second [update_state] with the same configuration and the same
    probe results succeeds when the first did and produces the same
    [local_state] up to version and uptime (same disks, same alert); run at
    two times within one despam interval, the two calls add at most one
    low-space error line to the log. *)
Theorem C7_update_state_twice_same_snapshot (w1 w2 : env)
  (m : local_monitor) (lg : clusterlog) (t1 t2 : Z) :
  same_inputs w1 w2 ->
  fst (fst (update_state w1 m)) = Done tt ->
  t1 <= t2 < t1 + despam_interval lg ->
  let m1 := snd (fst (update_state w1 m)) in
  let m2 := snd (fst (update_state w2 m1)) in
  fst (fst (update_state w2 m1)) = Done tt /\
  disks (get_state_cached m2) = disks (get_state_cached m1) /\
  storage_space_alert (get_state_cached m2)
    = storage_space_alert (get_state_cached m1) /\
  exists new,
    error_lines (logger (run {| monitor := m; logger := lg; running := true |}
                           [(w1, t1); (w2, t2)]))
      = error_lines lg ++ new /\
    (List.length new <= 1)%nat.
Proof.
  intros (Ep & Eb & Ed & Es) H1 Ht m1 m2. subst m1 m2.
  apply update_state_done_run in H1.
  destruct (update_state_done_inv w1 m _ _ H1)
    as (svfs & a & tr' & Hprobe & Hev & Em1 & _).
  rewrite Em1.
  assert (Hprobe2 :
    probe w2 (with_state (with_alert a (fresh_state w1 svfs))
                (configured w1 m)) = StatOk svfs).
  { rewrite <- Hprobe. unfold probe, probe_path.
    cbn [with_state configured _statvfs_for_test _path_for_test].
    rewrite Ed, Es. reflexivity. }
  assert (Hdisk : disk_of_statvfs w2 svfs = disk_of_statvfs w1 svfs)
    by (unfold disk_of_statvfs; rewrite Ed; reflexivity).
  rewrite (update_state_eq w2), Hprobe2, Ep, Eb, Hdisk, Hev.
  cbn [fst snd get_state_cached with_state with_alert _state disks
       storage_space_alert fresh_state].
  rewrite Hdisk.
  repeat split.
  destruct (two_cycles_window lg m w1 w2 t1 t2 Ht) as (new & E & Hlen).
  exists new. split; assumption.
Qed.

Lemma C7_twice_witness :
  let low := StatOk {| f_frsize := 4096;
                       f_blocks := 1000 * GiB / 4096;
                       f_bfree := 50 * GiB / 4096 |} in
  let w1 := sample_env 10 (100 * GiB) low in
  let w2 := {| storage_space_alert_free_threshold_percent := 10;
               storage_space_alert_free_threshold_bytes := 100 * GiB;
               data_directory := "/var/lib/redpanda/data";
               engine_statvfs := fun _ => low;
               version := "v21.11.2";
               engine_uptime := 90000 |} in
  let m := sample_monitor 5 1000 [] in
  let lg := {| despam_interval := 3600; last_emitted := None; lines := [] |} in
  let m1 := snd (fst (update_state w1 m)) in
  let m2 := snd (fst (update_state w2 m1)) in
  fst (fst (update_state w2 m1)) = Done tt /\
  disks (get_state_cached m2) = disks (get_state_cached m1) /\
  storage_space_alert (get_state_cached m2)
    = storage_space_alert (get_state_cached m1) /\
  exists new,
    error_lines (logger (run {| monitor := m; logger := lg; running := true |}
                           [(w1, 100); (w2, 130)]))
      = error_lines lg ++ new /\
    (List.length new <= 1)%nat.
Proof.
  intros low w1 w2 m lg.
  apply (C7_update_state_twice_same_snapshot w1 w2 m lg 100 130).
  - repeat split.
  - vm_compute. reflexivity.
  - simpl. lia.
Defined.

(** C6: a configuration refresh stores both configured thresholds in the
    cache; for each of the two settings it logs one transition message
    (old, new) when the value differs from the cached one and nothing when
    it is the same, in which case the monitor is left as it was.  Within
    [update_state] these are the only informational messages, and the
    evaluation of the same cycle compares the probed disk against the floor
    of the new values. *)
Theorem C6_refresh_logs_each_changed_threshold_once (w : env)
  (m : local_monitor) :
  let old_p := last_free_space_percent_threshold m in
  let new_p := storage_space_alert_free_threshold_percent w in
  let old_b := last_free_space_bytes_threshold m in
  let new_b := storage_space_alert_free_threshold_bytes w in
  exists m' tr,
    refresh_configuration w m = (Done tt, m', tr) /\
    last_free_space_percent_threshold m' = new_p /\
    last_free_space_bytes_threshold m' = new_b /\
    filter is_info_percent tr =
      (if old_p =? new_p then [] else [EvInfoPercent old_p new_p]) /\
    filter is_info_bytes tr =
      (if old_b =? new_b then [] else [EvInfoBytes old_b new_b]) /\
    List.length tr
      = ((if (old_p =? new_p)%Z then 0 else 1)
         + (if (old_b =? new_b)%Z then 0 else 1))%nat /\
    (old_p = new_p -> old_b = new_b -> m' = m) /\
    filter is_info (snd (update_state w m)) = tr /\
    (forall svfs,
       probe w m = StatOk svfs ->
       0 <= new_p <= 100 ->
       total (disk_of_statvfs w svfs) <> 0 ->
       fst (fst (update_state w m)) = Done tt /\
       storage_space_alert (_state (snd (fst (update_state w m)))) =
         (if below_floor m' (disk_of_statvfs w svfs)
          then low_space else ok)).
Proof.
  intros old_p new_p old_b new_b.
  exists (configured w m), (info_events w m).
  split; [apply refresh_configuration_eq|].
  split; [reflexivity|]. split; [reflexivity|].
  split; [unfold info_events; fold old_p new_p old_b new_b;
          destruct (old_p =? new_p), (old_b =? new_b); reflexivity|].
  split; [unfold info_events; fold old_p new_p old_b new_b;
          destruct (old_p =? new_p), (old_b =? new_b); reflexivity|].
  split; [unfold info_events; fold old_p new_p old_b new_b;
          destruct (old_p =? new_p), (old_b =? new_b); reflexivity|].
  split.
  { intros Ep Eb. subst old_p new_p old_b new_b.
    unfold configured. rewrite <- Ep, <- Eb. destruct m; reflexivity. }
  split.
  { rewrite update_state_eq.
    assert (E1 : filter is_info (probe_events w m) = [])
      by (unfold probe_events; destruct (_statvfs_for_test m); reflexivity).
    assert (E0 : filter is_info (info_events w m) = info_events w m)
      by (unfold info_events; fold old_p new_p old_b new_b;
          destruct (old_p =? new_p), (old_b =? new_b); reflexivity).
    destruct (probe w m) as [svfs|e].
    - pose proof (evaluate_quiet new_p new_b [disk_of_statvfs w svfs] ok)
        as Hq.
      fold new_p new_b.
      destruct (evaluate new_p new_b _ ok) as [[r a] tr']. cbn [snd] in *.
      rewrite !filter_app, E0, E1. cbn [filter is_info app].
      rewrite (quiet_no_info tr' Hq), app_nil_r. reflexivity.
    - cbn [snd]. rewrite !filter_app, E0, E1, app_nil_r. reflexivity. }
  intros svfs Hprobe Hp Hnz.
  rewrite update_state_eq, Hprobe.
  destruct (evaluate_done (configured w m) [disk_of_statvfs w svfs] ok Hp)
    as (tr' & Hev & _).
  { repeat constructor; unfold disk_of_statvfs, wrap64 in *; cbn [total] in *.
    - pose proof (Z.mod_pos_bound (f_blocks svfs * f_frsize svfs) (2 ^ 64)
                    ltac:(lia)). lia.
    - apply Z.mod_pos_bound. lia. }
  cbn [configured last_free_space_percent_threshold
       last_free_space_bytes_threshold] in Hev.
  fold new_p new_b in Hev |- *. rewrite Hev.
  cbn [fst snd with_state with_alert _state storage_space_alert existsb].
  split; [reflexivity|].
  destruct (below_floor (configured w m) (disk_of_statvfs w svfs));
    reflexivity.
Qed.

Lemma C6_refresh_witness :
  let w := sample_env 5 (500 * 2 ^ 20)
             (StatOk {| f_frsize := 4096;
                        f_blocks := 1000 * GiB / 4096;
                        f_bfree := 50 * GiB / 4096 |}) in
  let m := sample_monitor 10 GiB [] in
  refresh_configuration w m =
    (Done tt, configured w m,
     [EvInfoPercent 10 5; EvInfoBytes GiB (500 * 2 ^ 20)]) /\
  fst (fst (update_state w m)) = Done tt /\
  storage_space_alert (_state (snd (fst (update_state w m)))) = ok.
Proof.
  intros w m.
  destruct (C6_refresh_logs_each_changed_threshold_once w m)
    as (m' & tr & E & _ & _ & _ & _ & _ & _ & _ & Huse).
  destruct (Huse {| f_frsize := 4096;
                    f_blocks := 1000 * GiB / 4096;
                    f_bfree := 50 * GiB / 4096 |})
    as [Hdone Halert].
  - reflexivity.
  - simpl. lia.
  - vm_compute. discriminate.
  - split; [vm_compute; reflexivity|]. split; [exact Hdone|].
    vm_compute. reflexivity.
Defined.

(** C3, as stated, fails: the new snapshot is assigned to [_state] before the
    alert is evaluated.  On a disk below its floor the first value written to
    [_state] has the new cycle's disk and the alert [ok]; the evaluation then
    updates that cached state in place to [low_space]. *)
Lemma C3_snapshot_stored_before_evaluation :
  let w := sample_env 10 (100 * GiB)
             (StatOk {| f_frsize := 4096;
                        f_blocks := 1000 * GiB / 4096;
                        f_bfree := 50 * GiB / 4096 |}) in
  let m := sample_monitor 10 (100 * GiB) [] in
  let unevaluated :=
    {| redpanda_version := "v21.11.1";
       uptime := 60000;
       disks := [sample_disk (50 * GiB) (1000 * GiB)];
       storage_space_alert := ok |} in
  fst (fst (update_state w m)) = Done tt /\
  get_state_cached (snd (fst (update_state w m)))
    = with_alert low_space unevaluated /\
  state_writes (_state m) (snd (update_state w m))
    = [unevaluated; unevaluated; with_alert low_space unevaluated] /\
  exists tr1 tr2,
    snd (update_state w m) = tr1 ++ EvStore unevaluated :: tr2 /\
    filter is_space_error tr1 = [] /\
    List.length (filter is_space_error tr2) = 1%nat.
Proof.
  cbv zeta. split; [vm_compute; reflexivity|].
  split; [vm_compute; reflexivity|]. split; [vm_compute; reflexivity|].
  exists [EvStatvfs "/var/lib/redpanda/data"; EvAwait; EvAwait; EvAwait].
  eexists. split; [vm_compute; reflexivity|].
  split; reflexivity.
Qed.

(** C3, amended: every refresh cycle runs in the order: refresh the
    configuration, probe the disk, assign the new snapshot (alert not yet
    evaluated) to [_state], evaluate the alert in place.  Every point at
    which the coroutine may be suspended comes before the assignment, so a
    reader of [get_state_cached] scheduled at a suspension point sees the
    previous snapshot, and after a successful cycle the cached snapshot
    carries the evaluated alert of the new disk. *)
Theorem C3_cycle_order_and_reader_views (w : env) (m : local_monitor) :
  (exists tr_cycle,
     snd (update_state w m)
       = info_events w m ++ probe_events w m ++ tr_cycle /\
     match probe w m with
     | StatErr _ => tr_cycle = []
     | StatOk svfs =>
         exists tr_eval,
           tr_cycle = EvStore (fresh_state w svfs) :: EvSetAlert ok :: tr_eval
           /\ Forall quiet tr_eval
     end) /\
  Forall (fun st => st = get_state_cached m)
    (reader_views (_state m) (snd (update_state w m))) /\
  (forall svfs,
     probe w m = StatOk svfs ->
     fst (fst (update_state w m)) = Done tt ->
     get_state_cached (snd (fst (update_state w m))) =
       with_alert
         (if below_floor (configured w m) (disk_of_statvfs w svfs)
          then low_space else ok)
         (fresh_state w svfs)).
Proof.
  rewrite update_state_eq.
  destruct (probe w m) as [svfs|e] eqn:Hprobe.
  - pose proof (evaluate_quiet (storage_space_alert_free_threshold_percent w)
                  (storage_space_alert_free_threshold_bytes w)
                  [disk_of_statvfs w svfs] ok) as Hq.
    destruct (evaluate _ _ [disk_of_statvfs w svfs] ok) as [[r a] tr'] eqn:Hev.
    cbn [fst snd] in *. split; [|split].
    + eexists. split; [reflexivity|]. exists tr'. split; [reflexivity|].
      assumption.
    + unfold info_events, probe_events.
      destruct (_ =? _), (_ =? _), (_statvfs_for_test m);
        cbn [app reader_views]; rewrite (quiet_no_views tr' _ Hq);
        repeat constructor.
    + intros svfs' Es Hr. injection Es as <-. subst r.
      cbn [get_state_cached with_state _state]. f_equal.
      cbn [evaluate] in Hev. unfold below_floor. rewrite min_space_eq.
      cbn [configured last_free_space_percent_threshold
           last_free_space_bytes_threshold].
      destruct (total_nonzero _); [|discriminate].
      destruct (min_free_by_percent _ _) as [T|]; [|discriminate].
      destruct (free _ <=? _); congruence.
  - cbn [fst snd]. split; [|split].
    + exists []. split; [now rewrite app_nil_r | reflexivity].
    + unfold info_events, probe_events.
      destruct (_ =? _), (_ =? _), (_statvfs_for_test m);
        cbn [app reader_views]; repeat constructor.
    + intros svfs' Es. discriminate.
Qed.

Lemma C3_cycle_order_witness :
  let w := sample_env 10 (100 * GiB)
             (StatOk {| f_frsize := 4096;
                        f_blocks := 1000 * GiB / 4096;
                        f_bfree := 50 * GiB / 4096 |}) in
  let m := sample_monitor 10 (100 * GiB) [sample_disk 7 9] in
  Forall (fun st => st = get_state_cached m)
    (reader_views (_state m) (snd (update_state w m))) /\
  storage_space_alert (get_state_cached (snd (fst (update_state w m))))
    = low_space.
Proof.
  intros w m.
  destruct (C3_cycle_order_and_reader_views w m) as (_ & Hviews & Hfinal).
  split; [exact Hviews|].
  rewrite (Hfinal {| f_frsize := 4096;
                     f_blocks := 1000 * GiB / 4096;
                     f_bfree := 50 * GiB / 4096 |}).
  - vm_compute. reflexivity.
  - reflexivity.
  - vm_compute. reflexivity.
Defined.

(** * Further properties of local_monitor.cc *)

(** ** get_disks, get_statvfs and the test seams *)



(** Once a statistics provider has been injected with
    [set_statvfs_for_test], the reactor is never consulted: the provider is
    called with the watched path, and the whole cycle is independent of what
    the reactor would have answered. *)
Theorem injected_statvfs_replaces_engine (w : env) (m : local_monitor)
  (func other : string -> stat_result) :
  probe w (set_statvfs_for_test func m) = func (probe_path w m) /\
  update_state (with_engine_statvfs other w) (set_statvfs_for_test func m)
    = update_state w (set_statvfs_for_test func m).
Proof.
  split; [reflexivity|].
  rewrite !update_state_eq. reflexivity.
Qed.

(** [update_state] never clears the test seams: the path override and the
    injected provider survive every call, whatever its outcome (returned,
    thrown or aborted), and the cached thresholds always end up equal to the
    configured ones. *)
Theorem update_state_keeps_test_overrides (w : env) (m : local_monitor) :
  _path_for_test (snd (fst (update_state w m))) = _path_for_test m /\
  _statvfs_for_test (snd (fst (update_state w m))) = _statvfs_for_test m /\
  last_free_space_percent_threshold (snd (fst (update_state w m)))
    = storage_space_alert_free_threshold_percent w /\
  last_free_space_bytes_threshold (snd (fst (update_state w m)))
    = storage_space_alert_free_threshold_bytes w.
Proof.
  rewrite update_state_eq.
  destruct (probe w m) as [svfs|e].
  - destruct (evaluate _ _ _ ok) as [[r a] tr]. cbn [fst snd].
    repeat split; reflexivity.
  - cbn [fst snd]. repeat split; reflexivity.
Qed.

(** ** Outcomes of a refresh cycle *)

(** With a configured percentage up to 100, a cycle has exactly three
    outcomes: the probe's exception when the query fails, the fatal
    assertion when the reported total (blocks x fragment size, reduced
    modulo 2^64) is zero, and a normal return otherwise. *)
Theorem update_state_outcome (w : env) (m : local_monitor) :
  0 <= storage_space_alert_free_threshold_percent w <= 100 ->
  fst (fst (update_state w m)) =
  match probe w m with
  | StatErr e => Threw e
  | StatOk svfs =>
      if wrap64 (f_blocks svfs * f_frsize svfs) =? 0
      then Fatal "Total disk space cannot be zero."
      else Done tt
  end.
Proof.
  intros Hp. rewrite update_state_eq.
  destruct (probe w m) as [svfs|e]; [|reflexivity].
  assert (Hu : 0 <= total (disk_of_statvfs w svfs) < 2 ^ 64)
    by (apply Z.mod_pos_bound; lia).
  change (wrap64 (f_blocks svfs * f_frsize svfs))
    with (total (disk_of_statvfs w svfs)).
  destruct (Z.eqb_spec (total (disk_of_statvfs w svfs)) 0) as [E|N].
  - pose proof (evaluate_fatal (configured w m) [disk_of_statvfs w svfs] ok
                  Hp ltac:(repeat constructor; lia)
                  ltac:(left; exact E)) as H.
    cbn [configured last_free_space_percent_threshold
         last_free_space_bytes_threshold] in H.
    destruct (evaluate _ _ _ ok) as [[r a] tr]. exact H.
  - destruct (evaluate_done (configured w m) [disk_of_statvfs w svfs] ok Hp
                ltac:(repeat constructor; lia)) as (tr & H & _).
    cbn [configured last_free_space_percent_threshold
         last_free_space_bytes_threshold] in H.
    rewrite H. reflexivity.
Qed.

Lemma update_state_outcome_witness :
  fst (fst (update_state
              (sample_env 10 1000
                 (StatOk {| f_frsize := 2 ^ 32; f_blocks := 2 ^ 32;
                            f_bfree := 1 |}))
              (sample_monitor 10 1000 [])))
  = Fatal "Total disk space cannot be zero.".
Proof.
  rewrite (update_state_outcome
             (sample_env 10 1000
                (StatOk {| f_frsize := 2 ^ 32; f_blocks := 2 ^ 32;
                           f_bfree := 1 |}))
             (sample_monitor 10 1000 [])).
  - reflexivity.
  - simpl. lia.
Defined.

(** A cycle whose probe fails has still refreshed the configuration: the
    cached thresholds hold the configured values and the transitions were
    logged, so the next cycle under the same configuration logs no
    transition again. *)
Theorem failed_probe_still_refreshes_thresholds (w1 w2 : env)
  (m : local_monitor) (e : string) :
  probe w1 m = StatErr e ->
  storage_space_alert_free_threshold_percent w2
    = storage_space_alert_free_threshold_percent w1 ->
  storage_space_alert_free_threshold_bytes w2
    = storage_space_alert_free_threshold_bytes w1 ->
  update_state w1 m
    = (Threw e, configured w1 m, info_events w1 m ++ probe_events w1 m) /\
  filter is_info (snd (update_state w1 m)) = info_events w1 m /\
  filter is_info (snd (update_state w2 (configured w1 m))) = [].
Proof.
  intros Hprobe Ep Eb.
  assert (Hpe : forall w m0, filter is_info (probe_events w m0) = [])
    by (intros w m0; unfold probe_events;
        destruct (_statvfs_for_test m0); reflexivity).
  assert (Hie : forall w m0,
            filter is_info (info_events w m0) = info_events w m0)
    by (intros w m0; unfold info_events;
        destruct (_ =? _), (_ =? _); reflexivity).
  rewrite (update_state_eq w1), Hprobe. split; [reflexivity|].
  cbn [snd]. rewrite filter_app, Hie, Hpe, app_nil_r.
  split; [reflexivity|].
  rewrite (update_state_eq w2).
  assert (Hi2 : info_events w2 (configured w1 m) = []).
  { unfold info_events, configured.
    cbn [last_free_space_percent_threshold last_free_space_bytes_threshold].
    rewrite Ep, Eb, !Z.eqb_refl. reflexivity. }
  destruct (probe w2 (configured w1 m)) as [svfs|e2].
  - pose proof (evaluate_quiet (storage_space_alert_free_threshold_percent w2)
                  (storage_space_alert_free_threshold_bytes w2)
                  [disk_of_statvfs w2 svfs] ok) as Hq.
    destruct (evaluate _ _ _ ok) as [[r a] tr]. cbn [snd] in *.
    rewrite Hi2, !filter_app, Hpe. cbn [app filter is_info].
    apply quiet_no_info. assumption.
  - cbn [snd]. rewrite Hi2, filter_app, Hpe. reflexivity.
Qed.

Lemma failed_probe_witness :
  filter is_info
    (snd (update_state (sample_env 5 500 (StatErr "Input/output error"))
            (sample_monitor 10 1000 [])))
    = [EvInfoPercent 10 5; EvInfoBytes 1000 500] /\
  filter is_info
    (snd (update_state
            (sample_env 5 500
               (StatOk {| f_frsize := 4096; f_blocks := 1000;
                          f_bfree := 500 |}))
            (configured (sample_env 5 500 (StatErr "Input/output error"))
               (sample_monitor 10 1000 [])))) = [].
Proof.
  destruct (failed_probe_still_refreshes_thresholds
              (sample_env 5 500 (StatErr "Input/output error"))
              (sample_env 5 500
                 (StatOk {| f_frsize := 4096; f_blocks := 1000;
                            f_bfree := 500 |}))
              (sample_monitor 10 1000 []) "Input/output error"
              eq_refl eq_refl eq_refl) as (_ & H1 & H2).
  split; [exact H1 | exact H2].
Defined.

(** Refreshing the configuration a second time without a change in between
    logs nothing and leaves the monitor as it is. *)
Theorem refresh_configuration_twice_is_silent (w : env) (m : local_monitor) :
  refresh_configuration w (snd (fst (refresh_configuration w m)))
  = (Done tt, snd (fst (refresh_configuration w m)), []).
Proof.
  rewrite (refresh_configuration_eq w m). cbn [fst snd].
  rewrite refresh_configuration_eq. unfold info_events, configured.
  cbn [last_free_space_percent_threshold last_free_space_bytes_threshold
       _state _path_for_test _statvfs_for_test].
  rewrite !Z.eqb_refl. reflexivity.
Qed.

(** ** What the evaluator writes and reports *)

(** [update_alert_state] writes nothing but the alert field: version, uptime
    and disks of the cached state, the test seams and the cached thresholds
    are the same after the call, whether it returned or died on the
    assertion. *)
Theorem update_alert_state_only_writes_alert (m : local_monitor) :
  exists a,
    snd (fst (update_alert_state m))
      = with_state (with_alert a (_state m)) m /\
    redpanda_version (_state (snd (fst (update_alert_state m))))
      = redpanda_version (_state m) /\
    uptime (_state (snd (fst (update_alert_state m)))) = uptime (_state m) /\
    disks (_state (snd (fst (update_alert_state m)))) = disks (_state m) /\
    _path_for_test (snd (fst (update_alert_state m))) = _path_for_test m /\
    _statvfs_for_test (snd (fst (update_alert_state m)))
      = _statvfs_for_test m /\
    last_free_space_percent_threshold (snd (fst (update_alert_state m)))
      = last_free_space_percent_threshold m /\
    last_free_space_bytes_threshold (snd (fst (update_alert_state m)))
      = last_free_space_bytes_threshold m.
Proof.
  rewrite update_alert_state_eq.
  destruct (evaluate _ _ _ ok) as [[r a] tr]. cbn [fst snd].
  exists a. repeat split; reflexivity.
Qed.

Lemma evaluate_space_error_sound (p b : Z) (l : list disk)
  (a : disk_space_alert) (pct : spec_float) (d : disk)
  (th fh mh : spec_float) :
  In (EvSpaceError pct d th fh mh) (snd (evaluate p b l a)) ->
  In d l /\ total d <> 0 /\ pct = percent_free d /\
  th = human_bytes (total d) /\ fh = human_bytes (free d) /\
  exists T, min_free_by_percent p (total d) = Some T /\
            free d <= Z.min T b /\ mh = human_bytes (Z.min T b).
Proof.
  revert a. induction l as [|d0 l IH]; intros a; cbn [evaluate].
  - intros [].
  - rewrite total_nonzero_spec.
    destruct (Z.eqb_spec (total d0) 0) as [E|N]; cbn [negb]; [intros []|].
    destruct (min_free_by_percent p (total d0)) as [T|] eqn:ET; [|intros []].
    destruct (Z.leb_spec (free d0) (Z.min T b)) as [Hle|Hgt].
    + specialize (IH low_space).
      destruct (evaluate p b l low_space) as [[r a'] tr]. cbn [snd] in *.
      intros [H|[H|[H|H]]]; try discriminate.
      * injection H as <- <- <- <- <-.
        split; [left; reflexivity|]. split; [assumption|].
        split; [reflexivity|]. split; [reflexivity|].
        split; [reflexivity|]. eauto.
      * destruct (IH H) as (Hin & Hrest). split; [right; assumption|].
        exact Hrest.
    + specialize (IH a).
      destruct (evaluate p b l a) as [[r a'] tr]. cbn [snd] in *.
      intros [H|H]; try discriminate.
      destruct (IH H) as (Hin & Hrest). split; [right; assumption|].
      exact Hrest.
Qed.

(** An integer below 2^53 is held by [human::bytes] without rounding. *)
Lemma human_bytes_exact (v : Z) :
  0 <= v < 2 ^ 53 -> fp.truncate (human_bytes v) = Some v.
Proof.
  intros Hv. unfold human_bytes, fp.double_of_Z, fp.of_Z, binary_normalize.
  destruct v as [|m|m]; [reflexivity| |lia].
  pose proof (digits2_pos_bounds m) as [Blo Bhi].
  set (d := Zpos (digits2_pos m)) in *.
  assert (Hd : 1 <= d <= 53).
  { split; [subst d; lia|].
    assert (d - 1 < 53) by (apply (Z.pow_lt_mono_r_iff 2); lia). lia. }
  destruct (binary_round_fits fp.dbl_prec fp.dbl_emax eq_refl false m 0)
    as (m' & Eq & Em').
  - fold d. unfold fp.dbl_prec. lia.
  - fold d. unfold emin, fp.dbl_prec, fp.dbl_emax. lia.
  - rewrite Eq. fold d in Em' |- *. unfold fp.dbl_prec in Em' |- *.
    unfold fp.truncate. rewrite Em'.
    assert (Hp : 0 < 2 ^ (53 - d)) by (apply Z.pow_pos_nonneg; lia).
    destruct (Z.ltb_spec (d + 0 - 53) 0) as [Hneg|Hpos].
    + replace (- (d + 0 - 53)) with (53 - d) by lia.
      rewrite Z.div_mul by lia. reflexivity.
    + replace (53 - d) with 0 by lia. replace (d + 0 - 53) with 0 by lia.
      change (2 ^ 0) with 1. rewrite !Z.mul_1_r. reflexivity.
Qed.

(** No false alarm: every low-space diagnostic issued by
    [update_alert_state] is for a disk of the snapshot whose total is not
    zero and whose free space is at or below its floor.  Its arguments are
    [percent_free] of that disk and, as [human::bytes] (a double), the
    disk's total, its free space and the floor that
    [maybe_log_space_error] recomputes, which is the floor the evaluator
    compared against; a floor below 2^53 is reported without rounding. *)
Theorem space_error_only_for_low_disks (m : local_monitor)
  (pct : spec_float) (d : disk) (th fh mh : spec_float) :
  In (EvSpaceError pct d th fh mh) (snd (update_alert_state m)) ->
  In d (disks (_state m)) /\
  total d <> 0 /\
  pct = percent_free d /\
  th = human_bytes (total d) /\
  fh = human_bytes (free d) /\
  exists f,
    min_space m d = Some f /\
    free d <= f /\
    mh = human_bytes f /\
    (0 <= f < 2 ^ 53 -> fp.truncate mh = Some f).
Proof.
  rewrite update_alert_state_eq.
  pose proof (evaluate_space_error_sound
                (last_free_space_percent_threshold m)
                (last_free_space_bytes_threshold m)
                (disks (_state m)) ok pct d th fh mh) as H.
  destruct (evaluate _ _ _ ok) as [[r a] tr]. cbn [snd] in *.
  intros [Hd|Hin]; [discriminate|].
  destruct (H Hin) as (H1 & H2 & H3 & H4 & H5 & T & ET & Hle & ->).
  repeat (split; [assumption|]).
  exists (Z.min T (last_free_space_bytes_threshold m)).
  split; [rewrite min_space_eq, ET; reflexivity|].
  split; [assumption|]. split; [reflexivity|].
  apply human_bytes_exact.
Qed.

Lemma space_error_witness :
  In (sample_disk 5 100)
     (disks (_state (sample_monitor 10 1000
                       [sample_disk 50 100; sample_disk 5 100]))) /\
  total (sample_disk 5 100) <> 0 /\
  S754_finite false 10485760 (-21) = percent_free (sample_disk 5 100) /\
  human_bytes 100 = human_bytes (total (sample_disk 5 100)) /\
  human_bytes 5 = human_bytes (free (sample_disk 5 100)) /\
  exists f,
    min_space (sample_monitor 10 1000 [sample_disk 50 100; sample_disk 5 100])
      (sample_disk 5 100) = Some f /\
    free (sample_disk 5 100) <= f /\
    human_bytes 10 = human_bytes f /\
    (0 <= f < 2 ^ 53 -> fp.truncate (human_bytes 10) = Some f).
Proof.
  apply (space_error_only_for_low_disks
           (sample_monitor 10 1000 [sample_disk 50 100; sample_disk 5 100])).
  vm_compute. do 4 right. left. reflexivity.
Defined.

Lemma evaluate_until_zero_total (m : local_monitor) (l1 l2 : list disk)
  (d0 : disk) (a : disk_space_alert) :
  0 <= last_free_space_percent_threshold m <= 100 ->
  Forall (fun d => 0 < total d < 2 ^ 64) l1 ->
  total d0 = 0 ->
  exists tr,
    evaluate (last_free_space_percent_threshold m)
      (last_free_space_bytes_threshold m) (l1 ++ d0 :: l2) a =
    (Fatal "Total disk space cannot be zero.",
     if existsb (below_floor m) l1 then low_space else a, tr) /\
    space_error_disks tr = filter (below_floor m) l1.
Proof.
  intros Hp Hl Hz. revert a.
  induction Hl as [|d l Hd Hl IH]; intros a;
    cbn [app evaluate existsb filter].
  - rewrite total_nonzero_spec, Hz. cbn. exists []. split; reflexivity.
  - rewrite total_nonzero_spec.
    destruct (Z.eqb_spec (total d) 0) as [E|_]; [lia|]. cbn [negb].
    destruct (min_space_defined m d Hp ltac:(lia)) as (T & ET & Ems).
    rewrite ET. unfold below_floor at 1 3. rewrite Ems.
    destruct (free d <=? Z.min T (last_free_space_bytes_threshold m)).
    + destruct (IH low_space) as (tr & -> & Htr).
      eexists. cbn [orb]. split.
      * destruct (existsb (below_floor m) l); reflexivity.
      * unfold space_error_disks in *. cbn [flat_map app]. now rewrite Htr.
    + destruct (IH a) as (tr & -> & Htr).
      eexists. cbn [orb]. split; [reflexivity|].
      unfold space_error_disks in *. cbn [flat_map app]. assumption.
Qed.

(** The loop dies at the first disk whose total is zero: the disks before it
    have been evaluated and the low ones among them reported, the cached
    alert reflects them, and no disk after it is looked at. *)
Theorem evaluation_stops_at_first_zero_total (m : local_monitor)
  (l1 l2 : list disk) (d0 : disk) :
  disks (_state m) = l1 ++ d0 :: l2 ->
  0 <= last_free_space_percent_threshold m <= 100 ->
  Forall (fun d => 0 < total d < 2 ^ 64) l1 ->
  total d0 = 0 ->
  fst (fst (update_alert_state m))
    = Fatal "Total disk space cannot be zero." /\
  storage_space_alert (_state (snd (fst (update_alert_state m))))
    = (if existsb (below_floor m) l1 then low_space else ok) /\
  space_error_disks (snd (update_alert_state m))
    = filter (below_floor m) l1.
Proof.
  intros Hd Hp Hl Hz. rewrite update_alert_state_eq, Hd.
  destruct (evaluate_until_zero_total m l1 l2 d0 ok Hp Hl Hz)
    as (tr & -> & Htr).
  cbn [fst snd with_state with_alert _state storage_space_alert].
  repeat split. exact Htr.
Qed.

Lemma evaluation_stops_witness :
  fst (fst (update_alert_state
              (sample_monitor 10 1000
                 [sample_disk 5 100; sample_disk 0 0; sample_disk 1 100])))
    = Fatal "Total disk space cannot be zero." /\
  space_error_disks
    (snd (update_alert_state
            (sample_monitor 10 1000
               [sample_disk 5 100; sample_disk 0 0; sample_disk 1 100])))
    = [sample_disk 5 100].
Proof.
  destruct (evaluation_stops_at_first_zero_total
              (sample_monitor 10 1000
                 [sample_disk 5 100; sample_disk 0 0; sample_disk 1 100])
              [sample_disk 5 100] [sample_disk 1 100] (sample_disk 0 0))
    as (H1 & _ & H3).
  - reflexivity.
  - simpl. lia.
  - repeat constructor.
  - reflexivity.
  - split; [exact H1 | exact H3].
Defined.

(** ** Edge values of the thresholds *)

Lemma percent_factor_0 : percent_factor 0 = S754_zero false.
Proof. vm_compute. reflexivity. Qed.

Lemma percent_factor_100 :
  percent_factor 100 = S754_finite false 9223372036854775808 (-63).
Proof. vm_compute. reflexivity. Qed.

(** The percentage term is exact at both ends of the range: 0% of any size
    is 0 and 100% of a size is that size (1.0 and the product are
    representable, so nothing is rounded). *)
Theorem percent_term_exact_at_0_and_100 (t : Z) :
  0 <= t < 2 ^ 64 ->
  min_free_by_percent 0 t = Some 0 /\ min_free_by_percent 100 t = Some t.
Proof.
  intros Ht. unfold min_free_by_percent.
  rewrite percent_factor_0, percent_factor_100.
  destruct (Z.eq_dec t 0) as [->|Hnz]; [split; reflexivity|].
  destruct (ld_of_Z_exact t ltac:(lia)) as (my & a & -> & Ha & Emy & Bmy).
  split; [reflexivity|].
  unfold fp.ld_mul, SFmul. cbn [xorb].
  set (mx := 9223372036854775808%positive).
  assert (Emx : Zpos mx = 2 ^ 63) by reflexivity.
  assert (Hdm : Zpos (digits2_pos my) = 64)
    by (apply (Zdigits2_unique (Zpos my) 64); [exact Bmy | lia]).
  assert (Hd : Zpos (digits2_pos (mx * my)) = 127).
  { rewrite (digits2_pos_shift my (mx * my) 63); [lia | lia |].
    rewrite Pos2Z.inj_mul, Emx. ring. }
  destruct (binary_round_aux_exact fp.ld_prec fp.ld_emax eq_refl false
              (mx * my) (-63 + - a))
    as (m' & k & Eq & Hk & _ & Herr & _).
  { rewrite Hd. unfold emin, fp.ld_prec, fp.ld_emax. lia. }
  rewrite Hd in Hk, Herr. unfold fp.ld_prec in Hk, Herr.
  rewrite Z.max_r in Hk, Herr by lia.
  replace (127 - 64) with 63 in Hk, Herr by lia.
  rewrite Eq.
  destruct (Z.leb_spec (-63 + - a + k) (fp.ld_emax - fp.ld_prec)) as [_|Hov];
    [|unfold fp.ld_emax, fp.ld_prec in Hov; lia].
  replace (-63 + - a + k) with (k - (a + 63)) by lia.
  destruct (truncate_bounds m' k (a + 63) ltac:(lia) ltac:(lia))
    as (T & ET & HT).
  assert (Hexact : Zpos m' * 2 ^ k = Zpos my * 2 ^ 63).
  { rewrite Pos2Z.inj_mul, Emx in Herr.
    assert (Ek : 2 ^ k = 2 ^ (k - 63) * 2 ^ 63)
      by (rewrite <- Z.pow_add_r by lia; f_equal; lia).
    rewrite Ek in Herr |- *.
    assert (P63 : 0 < 2 ^ 63) by lia.
    set (u := Zpos m' * 2 ^ (k - 63)).
    replace (Zpos m' * (2 ^ (k - 63) * 2 ^ 63)) with (u * 2 ^ 63) in *
      by (unfold u; ring).
    replace (u * 2 ^ 63 - 2 ^ 63 * Zpos my)
      with ((u - Zpos my) * 2 ^ 63) in Herr by ring.
    rewrite Z.abs_mul, (Z.abs_eq (2 ^ 63)) in Herr by lia.
    assert (Z.abs (u - Zpos my) = 0).
    { destruct (Z.eq_dec (Z.abs (u - Zpos my)) 0) as [E|N]; [exact E|].
      assert (1 * 2 ^ 63 <= Z.abs (u - Zpos my) * 2 ^ 63)
        by (apply Z.mul_le_mono_nonneg_r; lia).
      lia. }
    replace u with (Zpos my) by lia. reflexivity. }
  rewrite Hexact, Emy in HT.
  assert (EE : 2 ^ (a + 63) = 2 ^ a * 2 ^ 63)
    by (rewrite Z.pow_add_r by lia; reflexivity).
  rewrite EE in HT.
  assert (PE : 0 < 2 ^ a * 2 ^ 63)
    by (apply Z.mul_pos_pos; [apply Z.pow_pos_nonneg|]; lia).
  replace (t * 2 ^ a * 2 ^ 63) with (t * (2 ^ a * 2 ^ 63)) in HT by ring.
  destruct HT as [HT1 HT2].
  apply Z.mul_le_mono_pos_r in HT1; [|exact PE].
  apply Z.mul_lt_mono_pos_r in HT2; [|exact PE].
  assert (T = t) by lia. subst T.
  unfold fp.to_size_t. rewrite ET.
  destruct (Z.leb_spec 0 t); [|lia].
  destruct (Z.ltb_spec t (2 ^ 64)); [|lia]. reflexivity.
Qed.

Lemma percent_term_exact_witness :
  min_free_by_percent 0 (1000 * GiB) = Some 0 /\
  min_free_by_percent 100 (1000 * GiB) = Some (1000 * GiB).
Proof.
  apply (percent_term_exact_at_0_and_100 (1000 * GiB)).
  vm_compute. split; [discriminate | reflexivity].
Defined.

(** Whatever the thresholds (percentage up to 100, byte threshold not
    negative), a snapshot with a disk that has no free space at all is
    [low_space]: the floor is never negative. *)
Theorem no_free_space_is_low_space (m : local_monitor) :
  0 <= last_free_space_percent_threshold m <= 100 ->
  0 <= last_free_space_bytes_threshold m ->
  Forall (fun d => 0 < total d < 2 ^ 64) (disks (_state m)) ->
  Exists (fun d => free d = 0) (disks (_state m)) ->
  fst (fst (update_alert_state m)) = Done tt /\
  storage_space_alert (_state (snd (fst (update_alert_state m))))
    = low_space.
Proof.
  intros Hp Hb Hl Hex. rewrite update_alert_state_eq.
  destruct (evaluate_done m (disks (_state m)) ok Hp Hl) as (tr & -> & _).
  cbn [fst snd with_state with_alert _state storage_space_alert].
  split; [reflexivity|].
  assert (Hb' : existsb (below_floor m) (disks (_state m)) = true).
  { apply existsb_exists. apply Exists_exists in Hex.
    destruct Hex as (d & Hin & Hfree). exists d. split; [assumption|].
    rewrite Forall_forall in Hl. specialize (Hl d Hin). cbn beta in Hl.
    destruct (min_free_by_percent_spec _ (total d) Hp ltac:(lia))
      as (T & ET & HT & _).
    unfold below_floor. rewrite min_space_eq, ET, Hfree.
    apply Z.leb_le. lia. }
  rewrite Hb'. reflexivity.
Qed.

Lemma no_free_space_witness :
  fst (fst (update_alert_state
              (sample_monitor 0 0 [sample_disk 50 100; sample_disk 0 100])))
    = Done tt /\
  storage_space_alert
    (_state (snd (fst (update_alert_state
       (sample_monitor 0 0 [sample_disk 50 100; sample_disk 0 100])))))
    = low_space.
Proof.
  apply (no_free_space_is_low_space
           (sample_monitor 0 0 [sample_disk 50 100; sample_disk 0 100])).
  - simpl. lia.
  - simpl. lia.
  - repeat constructor.
  - right. left. reflexivity.
Defined.

(** The byte threshold caps the floor: when every disk has more free bytes
    than the byte threshold, the snapshot is [ok] and no low-space
    diagnostic is issued, whatever the percentage (up to 100). *)
Theorem free_above_bytes_threshold_is_ok (m : local_monitor) :
  0 <= last_free_space_percent_threshold m <= 100 ->
  Forall (fun d => 0 < total d < 2 ^ 64) (disks (_state m)) ->
  Forall (fun d => last_free_space_bytes_threshold m < free d)
    (disks (_state m)) ->
  fst (fst (update_alert_state m)) = Done tt /\
  storage_space_alert (_state (snd (fst (update_alert_state m)))) = ok /\
  space_error_disks (snd (update_alert_state m)) = [].
Proof.
  intros Hp Hl Hfree. rewrite update_alert_state_eq.
  destruct (evaluate_done m (disks (_state m)) ok Hp Hl) as (tr & -> & Htr).
  cbn [fst snd with_state with_alert _state storage_space_alert].
  assert (Hnone : forall d, In d (disks (_state m)) ->
                            below_floor m d = false).
  { intros d Hin. rewrite Forall_forall in Hl, Hfree.
    specialize (Hl d Hin). specialize (Hfree d Hin). cbn beta in *.
    destruct (min_free_by_percent_spec _ (total d) Hp ltac:(lia))
      as (T & ET & _).
    unfold below_floor. rewrite min_space_eq, ET.
    apply Z.leb_gt. lia. }
  assert (Hex : existsb (below_floor m) (disks (_state m)) = false).
  { destruct (existsb _ _) eqn:E; [|reflexivity].
    apply existsb_exists in E. destruct E as (d & Hin & Hb).
    rewrite (Hnone d Hin) in Hb. discriminate. }
  assert (Hfil : filter (below_floor m) (disks (_state m)) = []).
  { clear - Hnone. induction (disks (_state m)) as [|d l IH];
      [reflexivity|].
    cbn [filter]. rewrite (Hnone d (or_introl eq_refl)).
    apply IH. intros d' Hin. apply Hnone. right. assumption. }
  rewrite Hex. split; [reflexivity|]. split; [reflexivity|].
  cbn [space_error_disks flat_map app]. fold (space_error_disks tr).
  rewrite Htr. exact Hfil.
Qed.

Lemma free_above_bytes_threshold_witness :
  fst (fst (update_alert_state
              (sample_monitor 100 10 [sample_disk 50 100; sample_disk 11 100])))
    = Done tt /\
  storage_space_alert
    (_state (snd (fst (update_alert_state
       (sample_monitor 100 10 [sample_disk 50 100; sample_disk 11 100])))))
    = ok /\
  space_error_disks
    (snd (update_alert_state
            (sample_monitor 100 10 [sample_disk 50 100; sample_disk 11 100])))
    = [].
Proof.
  apply (free_above_bytes_threshold_is_ok
           (sample_monitor 100 10 [sample_disk 50 100; sample_disk 11 100])).
  - simpl. lia.
  - repeat constructor.
  - repeat constructor.
Defined.

(** ** percent_free *)

(** The percentage reported for a disk with no free space is +0: the
    quotient 0 / total, its product with 100.0 and the narrowing to float
    are all zero, for every nonzero 64-bit total. *)
Theorem percent_free_of_full_disk (d : disk) :
  0 < total d < 2 ^ 64 -> free d = 0 -> percent_free d = S754_zero false.
Proof.
  intros Ht Hf. unfold percent_free. rewrite Hf.
  destruct (ld_of_Z_exact (total d) Ht) as (my & a & -> & _).
  reflexivity.
Qed.

Lemma percent_free_of_full_disk_witness :
  percent_free (sample_disk 0 (1000 * GiB)) = S754_zero false.
Proof.
  apply (percent_free_of_full_disk (sample_disk 0 (1000 * GiB))).
  - vm_compute. split; reflexivity.
  - reflexivity.
Defined.

(** ** Recovery *)

(** The alert is recomputed from scratch on every evaluation: outcome, trace
    and resulting alert do not depend on the alert cached before, so a stale
    [low_space] is cleared as soon as no disk is at or below its floor, with
    no diagnostic for the recovery. *)
Theorem alert_is_recomputed_from_scratch (m : local_monitor)
  (stale : disk_space_alert) :
  let m0 := with_state (with_alert stale (_state m)) m in
  fst (fst (update_alert_state m0)) = fst (fst (update_alert_state m)) /\
  storage_space_alert (_state (snd (fst (update_alert_state m0))))
    = storage_space_alert (_state (snd (fst (update_alert_state m)))) /\
  snd (update_alert_state m0) = snd (update_alert_state m).
Proof.
  cbv zeta. rewrite !update_alert_state_eq.
  cbn [with_state with_alert _state disks last_free_space_percent_threshold
       last_free_space_bytes_threshold].
  destruct (evaluate _ _ _ ok) as [[r a] tr]. cbn [fst snd].
  repeat split; reflexivity.
Qed.
